(** * bus_scraper: the field-extraction heuristics and the validation layer

    A shallow embedding of [bus_scraper/spiders/bus_spider.py],
    [bus_scraper/models.py] and [bus_scraper/pipelines.py].

    Text is a Rocq [string]: a sequence of 8-bit characters, read as the
    Unicode code points U+0000..U+00FF.  The character classes below are the
    ones Python 3 uses for [str] on that range. *)

From Stdlib Require Import ZArith List String Ascii Bool Lia DecimalString.
From stdpp Require Import base option strings gmap.
Import ListNotations.

Local Open Scope string_scope.

(** ** Python [str] primitives *)
Module PyStr.

Definition code (c : ascii) : N := N_of_ascii c.

Definition between (lo hi : N) (c : ascii) : bool :=
  ((lo <=? code c) && (code c <=? hi))%N.

(** [str.isdecimal], the class [\d] *)
Definition isdigit (c : ascii) : bool := between 48 57 c.

(** [str.isspace], the class [\s]: TAB..CR, FS..US, SPACE, NEL, NBSP *)
Definition isspace (c : ascii) : bool :=
  between 9 13 c || between 28 32 c || (code c =? 133)%N || (code c =? 160)%N.

Definition isupper (c : ascii) : bool :=
  between 65 90 c || between 192 214 c || between 216 222 c.

Definition isalpha_ascii (c : ascii) : bool := between 65 90 c || between 97 122 c.

(** the class [\w]: alphanumeric code points and the underscore *)
Definition isword (c : ascii) : bool :=
  isalpha_ascii c || isdigit c || (code c =? 95)%N
  || (code c =? 170)%N || (code c =? 178)%N || (code c =? 179)%N
  || (code c =? 181)%N || between 185 186 c || between 188 190 c
  || between 192 214 c || between 216 246 c || between 248 255 c.

Definition lower_char (c : ascii) : ascii :=
  if isupper c then ascii_of_N (code c + 32) else c.

(** [s.lower()] *)
Fixpoint lower (s : string) : string :=
  match s with
  | "" => ""
  | String c t => String (lower_char c) (lower t)
  end.

(** truthiness of a [str]: [bool(s)] *)
Definition nonempty (s : string) : bool :=
  match s with "" => false | _ => true end.

Fixpoint drop_while (p : ascii -> bool) (s : string) : string :=
  match s with
  | "" => ""
  | String c t => if p c then drop_while p t else s
  end.

Fixpoint rev_onto (s acc : string) : string :=
  match s with
  | "" => acc
  | String c t => rev_onto t (String c acc)
  end.

Definition rev (s : string) : string := rev_onto s "".

(** [s.lstrip()], [s.rstrip()], [s.strip()] *)
Definition lstrip (s : string) : string := drop_while isspace s.
Definition rstrip (s : string) : string := rev (drop_while isspace (rev s)).
Definition strip (s : string) : string := rstrip (lstrip s).

Fixpoint take (n : nat) (s : string) : string :=
  match n, s with
  | S n', String c t => String c (take n' t)
  | _, _ => ""
  end.

Fixpoint drop (n : nat) (s : string) : string :=
  match n, s with
  | S n', String c t => drop n' t
  | _, _ => s
  end.

(** [s.startswith(p)] *)
Fixpoint startswith (p s : string) : bool :=
  match p, s with
  | "", _ => true
  | String a p', String b s' => if Ascii.eqb a b then startswith p' s' else false
  | _, "" => false
  end.

(** [needle in s] *)
Fixpoint contains (needle s : string) : bool :=
  startswith needle s ||
  match s with
  | "" => false
  | String _ t => contains needle t
  end.

(** [s.split(sep)] for a non-empty separator: the pieces between the
    leftmost non-overlapping occurrences of [sep].  [skip] counts the
    characters of an occurrence still to be passed over; [cur] is the piece
    being collected. *)
Fixpoint split_go (sep : string) (skip : nat) (cur : string) (s : string)
  : list string :=
  match s with
  | "" => [cur]
  | String c t =>
      match skip with
      | S n => split_go sep n cur t
      | O =>
          if startswith sep s
          then cur :: split_go sep (String.length sep - 1) "" t
          else split_go sep 0 (cur +:+ String c "") t
      end
  end.

Definition split (sep s : string) : list string := split_go sep 0 "" s.

(** [s.split()]: the maximal runs of non-whitespace characters *)
Fixpoint split_ws_go (cur : string) (s : string) : list string :=
  match s with
  | "" => if nonempty cur then [cur] else []
  | String c t =>
      if isspace c
      then (if nonempty cur then cur :: split_ws_go "" t else split_ws_go "" t)
      else split_ws_go (cur +:+ String c "") t
  end.

Definition split_ws (s : string) : list string := split_ws_go "" s.

(** [sep.join(parts)] *)
Fixpoint join (sep : string) (parts : list string) : string :=
  match parts with
  | [] => ""
  | [p] => p
  | p :: ps => p +:+ sep +:+ join sep ps
  end.

(** [s.replace(old, "")] for a one-character [old] *)
Fixpoint remove_char (old : ascii) (s : string) : string :=
  match s with
  | "" => ""
  | String c t => if Ascii.eqb c old then remove_char old t else String c (remove_char old t)
  end.

(** [str(n)] for an [int] *)
Definition of_Z (n : Z) : string := NilZero.string_of_int (Z.to_int n).

Definition digit_val (c : ascii) : Z := Z.of_N (code c) - 48.

(** the digits of an integer literal as [int()] reads them: decimal digits,
    a single underscore allowed between two digits *)
Fixpoint int_digits (acc : Z) (after_digit : bool) (s : string) : option Z :=
  match s with
  | "" => if after_digit then Some acc else None
  | String c t =>
      if isdigit c then int_digits (10 * acc + digit_val c) true t
      else if (code c =? 95)%N
           then (if after_digit
                 then match t with
                      | String d _ => if isdigit d then int_digits acc false t else None
                      | "" => None
                      end
                 else None)
           else None
  end.

(** the whitespace [int()] skips around a literal.  It is not the class of
    [str.strip]: the ASCII text goes to the C parser as it is, which skips
    TAB..CR and SPACE only, so FS..US (U+001C..U+001F) are no whitespace
    here; the spaces beyond ASCII (NEL, NBSP) are turned into SPACE first. *)
Definition isspace_int (c : ascii) : bool :=
  between 9 13 c || (code c =? 32)%N || (code c =? 133)%N || (code c =? 160)%N.

Definition strip_int (s : string) : string :=
  rev (drop_while isspace_int (rev (drop_while isspace_int s))).

(** the default of [sys.int_max_str_digits] *)
Definition int_max_str_digits : nat := 4300.

Fixpoint count_digits (s : string) : nat :=
  match s with
  | "" => 0
  | String c t => (if isdigit c then 1 else 0) + count_digits t
  end.

(** an unsigned literal: its digits, unless there are more than
    [int_max_str_digits] of them (leading zeros count) *)
Definition int_literal (body : string) : option Z :=
  match int_digits 0 false body with
  | Some n => if (int_max_str_digits <? count_digits body)%nat then None else Some n
  | None => None
  end.

(** [int(s)]: surrounding whitespace skipped, an optional sign, then the
    literal; [None] stands for [ValueError] *)
Definition to_int (s : string) : option Z :=
  match strip_int s with
  | String "+" t => int_literal t
  | String "-" t => Z.opp <$> int_literal t
  | t => int_literal t
  end.

End PyStr.

(** ** Python [re]: a backtracking matcher

    The patterns of the spider are kept as syntax trees and run by a
    backtracking matcher with the priorities of [re]: alternatives left to
    right, repetitions greedy, [re.search] leftmost. *)
Module Re.
Import PyStr.

Inductive regex : Type :=
| Eps                                  (* the empty pattern *)
| Chr (p : ascii -> bool)              (* one character of a class *)
| Seq (a b : regex)                    (* ab *)
| Alt (a b : regex)                    (* a|b *)
| Star (a : regex)                     (* a*, greedy *)
| Group (n : nat) (a : regex)          (* capturing group number n *)
| WordB.                               (* \b *)

Definition Plus (a : regex) : regex := Seq a (Star a).    (* a+ *)
Definition Opt (a : regex) : regex := Alt a Eps.          (* a? *)

(** a matcher position: the character before it, the text after it, and
    the groups captured so far (latest first) *)
Record mstate : Type := MState {
  prev : option ascii;
  rest : string;
  caps : list (nat * string)
}.

Definition word_before (s : mstate) : bool :=
  match prev s with Some c => isword c | None => false end.

Definition word_after (s : mstate) : bool :=
  match rest s with String c _ => isword c | "" => false end.

Definition consumed (from to : mstate) : string :=
  take (String.length (rest from) - String.length (rest to)) (rest from).

(** the greedy loop of a repetition: one more turn of [step] if it matches
    and moves on, else the rest of the pattern *)
Fixpoint star_loop (step : mstate -> (mstate -> option mstate) -> option mstate)
    (k : mstate -> option mstate) (fuel : nat) (s : mstate) : option mstate :=
  match fuel with
  | O => k s
  | S fuel' =>
      match step s (fun s' =>
              if (String.length (rest s') <? String.length (rest s))%nat
              then star_loop step k fuel' s' else None) with
      | Some e => Some e
      | None => k s
      end
  end.

(** [rmatch r s k]: match [r] at [s], then the rest of the pattern [k] *)
Fixpoint rmatch (r : regex) (s : mstate) (k : mstate -> option mstate)
  : option mstate :=
  match r with
  | Eps => k s
  | Chr p =>
      match rest s with
      | String c t => if p c then k (MState (Some c) t (caps s)) else None
      | "" => None
      end
  | Seq a b => rmatch a s (fun s' => rmatch b s' k)
  | Alt a b =>
      match rmatch a s k with
      | Some e => Some e
      | None => rmatch b s k
      end
  | Star a => star_loop (rmatch a) k (String.length (rest s)) s
  | Group n a =>
      rmatch a s (fun s' => k (MState (prev s') (rest s') ((n, consumed s s') :: caps s')))
  | WordB => if xorb (word_before s) (word_after s) then k s else None
  end.

(** a match object: [group(0)] and the numbered groups *)
Record rmatch_obj : Type := MatchObj {
  group0 : string;
  groups : list (nat * string)
}.

(** [m.group(n)] for n >= 1; [None] when the group did not take part *)
Fixpoint assoc (n : nat) (l : list (nat * string)) : option string :=
  match l with
  | [] => None
  | (i, v) :: l' => if Nat.eqb i n then Some v else assoc n l'
  end.

Definition group (m : rmatch_obj) (n : nat) : option string := assoc n (groups m).

Definition match_here (r : regex) (p : option ascii) (txt : string) : option rmatch_obj :=
  let s := MState p txt [] in
  match rmatch r s Some with
  | Some e => Some (MatchObj (consumed s e) (caps e))
  | None => None
  end.

Fixpoint search_from (r : regex) (p : option ascii) (txt : string) : option rmatch_obj :=
  match match_here r p txt with
  | Some m => Some m
  | None =>
      match txt with
      | "" => None
      | String c t => search_from r (Some c) t
      end
  end.

(** [re.search(r, txt)] *)
Definition search (r : regex) (txt : string) : option rmatch_obj := search_from r None txt.

(** [re.sub(r, "", txt)]: every leftmost non-overlapping non-empty match of
    [r] is deleted. *)
Fixpoint sub_empty_go (r : regex) (fuel : nat) (p : option ascii) (txt : string) : string :=
  match fuel with
  | O => txt
  | S fuel' =>
      match txt with
      | "" => ""
      | String c t =>
          let s := MState p txt [] in
          match rmatch r s (fun e => if (String.length (rest e) <? String.length txt)%nat
                                     then Some e else None) with
          | Some e => sub_empty_go r fuel' (prev e) (rest e)
          | None => String c (sub_empty_go r fuel' (Some c) t)
          end
      end
  end.

Definition sub_empty (r : regex) (txt : string) : string :=
  sub_empty_go r (String.length txt) None txt.

(** *** Pattern syntax *)

(** a literal character, under [re.IGNORECASE] when [ic] *)
Definition chr (ic : bool) (c : ascii) : regex :=
  Chr (fun x => if ic then Ascii.eqb (lower_char x) (lower_char c) else Ascii.eqb x c).

(** a literal word *)
Fixpoint lit (ic : bool) (w : string) : regex :=
  match w with
  | "" => Eps
  | String c "" => chr ic c
  | String c t => Seq (chr ic c) (lit ic t)
  end.

Fixpoint seqs (rs : list regex) : regex :=
  match rs with
  | [] => Eps
  | [r] => r
  | r :: rs' => Seq r (seqs rs')
  end.

Fixpoint alts (rs : list regex) : regex :=
  match rs with
  | [] => Eps
  | [r] => r
  | r :: rs' => Alt r (alts rs')
  end.

Definition is_char (c : ascii) : ascii -> bool := fun x => Ascii.eqb x c.

Definition d : regex := Chr isdigit.                          (* \d *)
Definition D : regex := Chr (fun c => negb (isdigit c)).      (* \D *)
Definition ws : regex := Chr isspace.                         (* \s *)

End Re.

(** ** Items, values and exceptions *)

(** [BusesImageItem] as [extract_images] fills it *)
Record image_item : Type := ImageItem {
  name : string;
  url : string;
  description : option string;
  image_index : Z
}.

(** [BusesOverviewItem]: only [features] is ever filled *)
Record overview_item : Type := OverviewItem {
  features : option string
}.

(** the values an item field holds *)
Inductive value : Type :=
| VNone
| VStr (s : string)
| VInt (n : Z)
| VBool (b : bool)
| VImages (l : list image_item)
| VOverview (o : overview_item).

(** a [BusItem]: a dict-like object from field names to values; a field
    never assigned has no entry *)
Abbreviation item := (gmap string value).

(** [item.get(key, None)] *)
Definition item_get (key : string) (it : item) : value :=
  match it !! key with
  | Some v => v
  | None => VNone
  end.

(** Python truth value *)
Definition truthy (v : value) : bool :=
  match v with
  | VNone => false
  | VStr s => PyStr.nonempty s
  | VInt n => negb (n =? 0)%Z
  | VBool b => b
  | VImages l => match l with [] => false | _ => true end
  | VOverview _ => true
  end.

Definition truthy_str (o : option string) : bool :=
  match o with
  | Some s => PyStr.nonempty s
  | None => false
  end.

(** an [Optional[str]] stored in a field *)
Definition vopt (o : option string) : value :=
  match o with
  | Some s => VStr s
  | None => VNone
  end.

Inductive pyexn : Type :=
| AttributeError
| IndexError
| ValueError
| ValidationError
| IntegrityError
| OtherError.

(** the outcome of a call that may raise *)
Inductive result (A : Type) : Type :=
| Ok (a : A)
| Raised (e : pyexn).
Arguments Ok {A} a.
Arguments Raised {A} e.

Definition bind {A B : Type} (m : result A) (f : A -> result B) : result B :=
  match m with
  | Ok a => f a
  | Raised e => Raised e
  end.

Notation "'do' x <- m ; k" := (bind m (fun x => k))
  (at level 10, x name, m at level 100, k at level 200).
Notation "'do' ' p <- m ; k" := (bind m (fun p => k))
  (at level 10, p pattern, m at level 100, k at level 200).

(** a method call on [m.group(n)]: [None] has no such method *)
Definition group_str (m : Re.rmatch_obj) (n : nat) : result string :=
  match Re.group m n with
  | Some g => Ok g
  | None => Raised AttributeError
  end.

Inductive log_entry : Type :=
| LogError (msg : string)
| LogWarning (msg : string)
| LogDebug (msg : string).

(** ** The spider: patterns *)
Module Patterns.
Import PyStr Re.

Definition digit_or (c : ascii) : regex := Chr (fun x => isdigit x || is_char c x).
Definition not_comma : regex := Chr (fun x => negb (is_char "," x)).
(** [[a-zA-Z\d\s]] *)
Definition alnum_space : regex := Chr (fun x => isalpha_ascii x || isdigit x || isspace x).

(** [\$([\d,]+(?:\.\d+)?)] *)
Definition price_re : regex :=
  Seq (chr false "$")
      (Group 1 (Seq (Plus (digit_or ",")) (Opt (Seq (chr false ".") (Plus d))))).

(** [starting at \$([\d,]+(?:\.\d+)?)] *)
Definition starting_at_re : regex := Seq (lit false "starting at ") price_re.

(** [Gross weight\s*([\d,]+)#?], IGNORECASE *)
Definition gross_weight_re : regex :=
  seqs [lit true "Gross weight"; Star ws; Group 1 (Plus (digit_or ",")); Opt (chr true "#")].

(** [\b(19|20)\d{2}\s\b] *)
Definition year_re : regex :=
  seqs [WordB; Group 1 (Alt (lit false "19") (lit false "20")); d; d; ws; WordB].

(** [(?:A/C|AC|Air conditioning|BTU)], IGNORECASE *)
Definition ac_re : regex :=
  alts [lit true "A/C"; lit true "AC"; lit true "Air conditioning"; lit true "BTU"].

(** [front and rear], IGNORECASE *)
Definition front_and_rear_re : regex := lit true "front and rear".

(** [(?:front and rear|dual)\s*dual compressor], IGNORECASE *)
Definition dual_after_re : regex :=
  seqs [Alt (lit true "front and rear") (lit true "dual"); Star ws; lit true "dual compressor"].

(** [dual compressor\s*(?:front and rear)], IGNORECASE *)
Definition dual_before_re : regex :=
  seqs [lit true "dual compressor"; Star ws; lit true "front and rear"].

Definition rear_re : regex := lit true "rear".
Definition dash_re : regex := lit true "dash".

(** [(DT\d{3} [^,]+\s*diesel)|(Duramax [^,]+\s*diesel)|(Ecoboost [^,]+\s*gas)],
    IGNORECASE *)
Definition engine_re : regex :=
  alts [Group 1 (seqs [lit true "DT"; d; d; d; chr true " "; Plus not_comma; Star ws; lit true "diesel"]);
        Group 2 (seqs [lit true "Duramax "; Plus not_comma; Star ws; lit true "diesel"]);
        Group 3 (seqs [lit true "Ecoboost "; Plus not_comma; Star ws; lit true "gas"])].

(** [([\d.]+[a-zA-Z\d\s]+(?:diesel|gas|engine|V\d+)+)], IGNORECASE *)
Definition engine_fallback_re : regex :=
  Group 1 (seqs [Plus (digit_or "."); Plus alnum_space;
                 Plus (alts [lit true "diesel"; lit true "gas"; lit true "engine";
                             Seq (chr true "V") (Plus d)])]).

(** [(Allison|10\s*speed|(?:\d+\s*(?:spd|speed))\s*(?:ovrdrv|overdrive)?\s*(?:auto|automatic)?)],
    IGNORECASE *)
Definition transmission_re : regex :=
  Group 1 (alts [lit true "Allison";
                 seqs [lit true "10"; Star ws; lit true "speed"];
                 seqs [seqs [Plus d; Star ws; Alt (lit true "spd") (lit true "speed")];
                       Star ws; Opt (Alt (lit true "ovrdrv") (lit true "overdrive"));
                       Star ws; Opt (Alt (lit true "auto") (lit true "automatic"))]]).

(** [(\d+\s*spd|speed|automatic|trans|ovrdrv|overdrive)], IGNORECASE *)
Definition transmission_fallback_re : regex :=
  Group 1 (alts [seqs [Plus d; Star ws; lit true "spd"]; lit true "speed";
                 lit true "automatic"; lit true "trans"; lit true "ovrdrv";
                 lit true "overdrive"]).

End Patterns.

(** ** The spider: helper functions *)
Module Spider.
Import PyStr Re Patterns.

Definition PASSANGER_KEY : string := "psssanger".
Definition MILES_KEY : string := "miles".
Definition WHEELCHAIR_KEY : string := "wheelchair".
Definition LUGGAGE_KEY : string := "luggage".

Definition allowed_domains : list string := ["absolutebus.com"].

(** [row.css("td")], as far as [extract_text_from_td] looks at it:
    [td.css("::text").getall()], [td.css("strong::text").get()] and
    [td.css("span.style2::text").get()] *)
Record td_sel : Type := TdSel {
  text_parts : list string;
  strong_text : option string;
  style2_text : option string
}.

Definition extract_text_from_td (td_element : td_sel) : string :=
  if truthy_str (strong_text td_element) then
    default "" (strong_text td_element) +:+ ", "
      +:+ strip (join "" (tl (text_parts td_element)))
  else if truthy_str (style2_text td_element) then
    strip (default "" (style2_text td_element))
  else
    strip (join "" (text_parts td_element)).

(** a listing table, as far as [parse] and [is_bus_sold] look at it *)
Record listing_table : Type := ListingTable {
  title_text : option string;      (* first text of the title anchor *)
  all_text : list string;          (* table.css("::text").getall() *)
  href : option string             (* td:nth-child(1) a::attr(href) *)
}.

Definition is_bus_sold (table : listing_table) : Z :=
  let sold_out_indicator := "Sold" in
  if contains sold_out_indicator (join "" (all_text table)) then 1 else 0.

Definition extract_price (text : option string) : option string :=
  if negb (truthy_str text) then None
  else
    let text := default "" text in
    match search price_re text with
    | Some price_match => group price_match 1
    | None =>
        match search starting_at_re text with
        | Some _ =>
            match search starting_at_re text with
            | Some price_match_starting => group price_match_starting 1
            | None => None
            end
        | None => None
        end
    end.

Definition extract_gross_weight (text : string) (it : item) : result (bool * item) :=
  match search gross_weight_re text with
  | Some weight_match =>
      do g <- group_str weight_match 1;
      Ok (true, <["gvwr" := VStr (remove_char "," g)]> it)
  | None => Ok (false, it)
  end.

Definition find_year_with_space (text : string) : option string :=
  match search year_re text with
  | Some m => Some (group0 m)
  | None => None
  end.

Definition find_year_make_model (text : string) (it : item) : bool * item :=
  if truthy_str (find_year_with_space text) then
    let parts := map strip (split "," text) in
    match parts with
    | p0 :: p1 :: _ =>                    (* len(parts) >= 2 *)
        match split_ws p0 with
        | year :: make_words =>
            let it := <["year" := VStr year]> it in
            let it := <["make" := VStr (join " " make_words)]> it in
            let it := <["model" := VStr (strip p1)]> it in
            (true, it)
        | [] => (false, it)               (* IndexError, caught *)
        end
    | _ => (false, it)
    end
  else (false, it).

(** [extract_engine]; the method call on [group(1)] raises when the match
    went through the second or third alternative *)
Definition extract_engine (text : string) : result (option string) :=
  match search engine_re text with
  | Some engine_match =>
      do g <- group_str engine_match 1; Ok (Some (strip g))
  | None =>
      match search engine_fallback_re text with
      | Some engine_match =>
          do g <- group_str engine_match 1; Ok (Some (strip g))
      | None => Ok None
      end
  end.

Definition extract_transmission (text : string) : result (option string) :=
  if negb (nonempty text) then Ok None
  else
    match search transmission_re text with
    | Some transmission_match =>
        do g <- group_str transmission_match 1; Ok (Some (strip g))
    | None =>
        match search transmission_fallback_re text with
        | Some transmission_match =>
            do g <- group_str transmission_match 1; Ok (Some (strip g))
        | None => Ok None
        end
    end.

Definition extract_engine_transmission (text : string) (it : item)
  : result ((option string * option string) * item) :=
  do engine <-
    match search engine_re text with
    | Some engine_match =>
        do g <- group_str engine_match 1; Ok (Some (strip g))
    | None =>
        match search engine_fallback_re text with
        | Some engine_match =>
            do g <- group_str engine_match 1; Ok (Some (strip g))
        | None => Ok None
        end
    end;
  do transmission <- extract_transmission text;
  let it := <["engine" :=
               if negb (truthy (item_get "engine" it)) then vopt engine
               else item_get "engine" it]> it in
  let it := <["transmission" :=
               if negb (truthy (item_get "transmission" it)) then vopt transmission
               else item_get "transmission" it]> it in
  Ok ((engine, transmission), it).

(** the loop of [extract_air_conditioning]: the value of
    [air_conditioning_text] and the last binding of [text] when it ends *)
Fixpoint ac_scan (rows : list td_sel) (text : option string)
  : option string * option string :=
  match rows with
  | [] => (None, text)
  | row :: rows' =>
      let text := extract_text_from_td row in
      match search ac_re text with
      | Some _ => (Some text, Some text)            (* break *)
      | None => ac_scan rows' (Some text)
      end
  end.

Definition is_match (r : regex) (text : string) : bool :=
  match search r text with Some _ => true | None => false end.

(** the category chain of [extract_air_conditioning] *)
Definition ac_category (text : string) : string :=
  if is_match front_and_rear_re text then
    (if is_match (lit true "dual compressor") text then "BOTH" else "BOTH")
  else if is_match dual_after_re text then "BOTH"
  else if is_match dual_before_re text then "BOTH"
  else if is_match rear_re text then "REAR"
  else if is_match dash_re text then "DASH"
  else "OTHER".

Definition extract_air_conditioning (rows : list td_sel) : option string :=
  let '(air_conditioning_text, text) := ac_scan rows None in
  if negb (truthy_str air_conditioning_text) then None
  else
    match text with
    | Some text => Some (ac_category text)
    | None => None       (* not reached: [text] is bound once a row was seen *)
    end.

(** an [img] element of the page: its attributes, and the selectors that
    select it *)
Record img_node : Type := ImgNode {
  img_alt : option string;
  img_src : option string;
  img_title : option string;
  selected_by : string -> bool
}.

(** a response, as far as the spider looks at it *)
Record response : Type := Response {
  status : Z;
  urljoin : option string -> string;
  meta_item : item;                      (* response.meta["item"] *)
  img_nodes : list img_node;             (* the img elements, in document order *)
  paragraphs : list string;              (* #bodytext p:not([class])::text *)
  h3_text : option string;               (* response.css("h3::text").get() *)
  table_rows : list td_sel;              (* table.posttable:first-of-type tr *)
  listing_tables : list listing_table    (* response.css("table") *)
}.

(** [response.css(selector)] on the [img] elements *)
Definition css_img (r : response) (selector : string) : list img_node :=
  List.filter (fun n => selected_by n selector) (img_nodes r).

Definition extract_images (r : response) (selector image_type : string)
  : list image_item :=
  imap (fun i img =>
          let name_extracted := img_alt img in
          let url_extracted := urljoin r (img_src img) in
          let description_extracted := img_title img in
          let index :=
            if String.eqb image_type "thumbnails" then (-1 - Z.of_nat i)%Z
            else if String.eqb image_type "main_images" then (1 + Z.of_nat i)%Z
            else Z.of_nat i in
          let name :=
            if negb (truthy_str name_extracted)
            then image_type +:+ "_" +:+ of_Z (Z.of_nat i)
            else default "" name_extracted in
          ImageItem name url_extracted description_extracted index)
       (css_img r selector).

Definition extract_bus_overview_info (overview_features : option string) : overview_item :=
  OverviewItem overview_features.

Definition main_floor_images_sel : string :=
  "#bodytext > img:first-child, p.style5 > img, p.style4 > img".
Definition thumbnails_sel : string := ".thumbnails a img".

(** [item["images"].extend(more)] *)
Definition extend_images (more : list image_item) (it : item) : item :=
  match it !! "images" with
  | Some (VImages l) => <["images" := VImages (l ++ more)%list]> it
  | _ => it
  end.

(** one turn of the row loop of [parse_bus_details]; the state is the item
    and [other_details] *)
Definition classify_row (row : td_sel) (st : item * list string)
  : result (item * list string) :=
  let '(it, other_details) := st in
  let text_to_save := extract_text_from_td row in
  if nonempty text_to_save then
    let '(found, it1) := find_year_make_model text_to_save it in
    if found then Ok (it1, other_details)
    else if contains PASSANGER_KEY (lower text_to_save) then
      Ok (<["passengers" := VStr text_to_save]> it, other_details)
    else if contains MILES_KEY (lower text_to_save) then
      if truthy (item_get "mileage" it) then Ok (it, other_details)
      else Ok (<["mileage" := VStr (hd "" (split MILES_KEY text_to_save))]> it,
               other_details)
    else
      do '(et, it2) <- extract_engine_transmission text_to_save it;
      if truthy_str (fst et) || truthy_str (snd et) then Ok (it2, other_details)
      else
        do '(gw, it3) <- extract_gross_weight text_to_save it2;
        if gw then Ok (it3, other_details)
        else if contains WHEELCHAIR_KEY (lower text_to_save) then
          Ok (<["wheelchair" := VStr text_to_save]> it3, other_details)
        else if contains LUGGAGE_KEY (lower text_to_save) then
          Ok (<[LUGGAGE_KEY := VInt 1]> it3, other_details)
        else Ok (it3, (other_details ++ [text_to_save])%list)
  else Ok (it, other_details).

Fixpoint classify_rows (rows : list td_sel) (st : item * list string)
  : result (item * list string) :=
  match rows with
  | [] => Ok st
  | row :: rows' => do st' <- classify_row row st; classify_rows rows' st'
  end.

(** a request for a detail page, carrying the item in its [meta] *)
Record request : Type := Request {
  req_url : string;
  req_item : item
}.

Section Callbacks.

(** [scrapy.utils.response.response_status_message] *)
Variable response_status_message : Z -> string.

Definition request_failed (r : response) : list log_entry :=
  if (400 <? status r)%Z then
    [LogError ("Request failed with status: " +:+ of_Z (status r) +:+ " - "
               +:+ response_status_message (status r))]
  else [].

(** the body of the loop of [parse] for one listing table *)
Definition parse_table (r : response) (table : listing_table) : option request :=
  let it : item := ∅ in
  let it := <["source" := VStr (hd "" (split "." (hd "" allowed_domains)))]> it in
  let title_element_text := title_text table in
  let it := <["title" := if truthy_str title_element_text
                         then VStr (strip (default "" title_element_text))
                         else VNone]> it in
  let it := <["sold" := VInt (is_bus_sold table)]> it in
  let bus_url_text := href table in
  if truthy_str bus_url_text then
    let full_url := urljoin r (Some (strip (default "" bus_url_text))) in
    let it := <["source_url" := VStr full_url]> it in
    Some (Request full_url it)
  else None.

(** [BusSpider.parse]: the requests yielded, and the log *)
Definition parse (r : response) : list request * list log_entry :=
  (omap (parse_table r) (listing_tables r), request_failed r).

(** [BusSpider.parse_bus_details]: the items yielded, and the log *)
Definition parse_bus_details (r : response) : result (list item * list log_entry) :=
  let it := meta_item r in
  let it := <["images" := VImages []]> it in
  let it := extend_images (extract_images r main_floor_images_sel "main_images") it in
  let it := extend_images (extract_images r thumbnails_sel "thumbnails") it in
  let paragraphs_cleaned := map strip (paragraphs r) in
  let description_text := join "" paragraphs_cleaned in
  let it := <["description" := VStr description_text]> it in
  let price_text := h3_text r in
  let it := <["price" := vopt (extract_price price_text)]> it in
  let it := <["airconditioning" := vopt (extract_air_conditioning (table_rows r))]> it in
  do '(it, other_details) <- classify_rows (table_rows r) (it, []);
  let overview_features :=
    match other_details with
    | [] => None
    | _ => Some (join ", " other_details)
    end in
  let it := <["bus_overview" := VOverview (extract_bus_overview_info overview_features)]> it in
  Ok ([it], request_failed r).

End Callbacks.

End Spider.

(** ** The validated record: [models.Bus] *)
Module Models.
Import PyStr Re.

(** [Bus.validate_price] *)
Definition validate_price (v : option string) : option string :=
  match v with
  | Some v =>
      let v := hd "" (split "." v) in
      let digits_only := sub_empty D v in
      if negb (nonempty digits_only) then None else Some digits_only
  | None => None
  end.

(** [Bus.validate_year]; both [raise]s inside leave as [ValueError] *)
Definition validate_year (v : option string) : result (option string) :=
  match v with
  | Some v =>
      match to_int v with
      | Some year =>
          if negb ((1900 <=? year)%Z && (year <=? 2100)%Z)
          then Raised ValueError
          else Ok (Some (of_Z year))
      | None => Raised ValueError
      end
  | None => Ok None
  end.

(** [Bus.validate_make] *)
Definition validate_make (v : option string) : result (option string) :=
  match v with
  | Some v =>
      match split " " v with
      | w :: _ => Ok (Some w)
      | [] => Raised IndexError
      end
  | None => Ok None
  end.

(** [Bus.validate_wheelchair] *)
Definition validate_wheelchair (v : option string) : option string :=
  match v with
  | Some v =>
      let v := strip v in
      let v := if (60 <? String.length v)%nat then take 60 v else v in
      Some v
  | None => None
  end.

(** the annotated type of a field, [Optional[...]] throughout *)
Inductive kind : Type := KStr | KBool | KInt | KImages | KOverview.

(** the fields of [Bus] in declaration order, with their defaults *)
Definition bus_fields : list (string * kind * value) :=
  [("title", KStr, VNone); ("year", KStr, VNone); ("make", KStr, VNone);
   ("model", KStr, VNone); ("body", KStr, VNone); ("chassis", KStr, VNone);
   ("engine", KStr, VNone); ("transmission", KStr, VNone);
   ("mileage", KStr, VNone); ("passengers", KStr, VNone);
   ("wheelchair", KStr, VNone); ("color", KStr, VNone);
   ("interior_color", KStr, VNone); ("exterior_color", KStr, VNone);
   ("published", KBool, VBool false); ("featured", KBool, VBool false);
   ("sold", KBool, VBool false); ("scraped", KBool, VBool true);
   ("draft", KBool, VBool false); ("source", KStr, VNone);
   ("source_url", KStr, VNone); ("price", KStr, VNone); ("cprice", KStr, VNone);
   ("vin", KStr, VNone); ("gvwr", KStr, VNone); ("dimensions", KStr, VNone);
   ("luggage", KBool, VBool false); ("state_bus_standard", KStr, VNone);
   ("airconditioning", KStr, VNone); ("location", KStr, VNone);
   ("brake", KStr, VNone); ("contact_email", KStr, VNone);
   ("contact_phone", KStr, VNone); ("us_region", KStr, VNone);
   ("description", KStr, VNone); ("score", KInt, VInt 0);
   ("category_id", KInt, VInt 0); ("images", KImages, VNone);
   ("bus_overview", KOverview, VNone)].

Definition bool_of_str (s : string) : option bool :=
  let s := lower s in
  if existsb (String.eqb s) ["0"; "off"; "f"; "false"; "n"; "no"] then Some false
  else if existsb (String.eqb s) ["1"; "on"; "t"; "true"; "y"; "yes"] then Some true
  else None.

(** the type check of a field; [None] is a type error.  A boolean field also
    reads the integers 0 and 1 and the usual words; the readings of other
    types for an integer field are not modelled (the spider stores nothing
    in an integer field). *)
Definition check_type (k : kind) (v : value) : option value :=
  match k, v with
  | _, VNone => Some VNone
  | KStr, VStr s => Some v
  | KBool, VBool b => Some v
  | KBool, VInt n =>
      if (n =? 0)%Z then Some (VBool false)
      else if (n =? 1)%Z then Some (VBool true) else None
  | KBool, VStr s => VBool <$> bool_of_str s
  | KInt, VInt n => Some v
  | KImages, VImages l => Some v
  | KOverview, VOverview o => Some v
  | _, _ => None
  end.

Definition as_opt_str (v : value) : option string :=
  match v with
  | VStr s => Some s
  | _ => None
  end.

(** the [@field_validator] of a field, if it has one *)
Definition field_validator (field : string) (v : value) : result value :=
  if String.eqb field "price" then Ok (vopt (validate_price (as_opt_str v)))
  else if String.eqb field "year" then
    do y <- validate_year (as_opt_str v); Ok (vopt y)
  else if String.eqb field "make" then
    do m <- validate_make (as_opt_str v); Ok (vopt m)
  else if String.eqb field "wheelchair" then
    Ok (vopt (validate_wheelchair (as_opt_str v)))
  else Ok v.

(** validation of the keyword arguments field by field: a type error or a
    [ValueError] of a validator is recorded ([failed]) and validation goes on;
    any other exception leaves at once *)
Fixpoint init_fields (fields : list (string * kind * value)) (kwargs : item)
    (acc : item) (failed : bool) : result (item * bool) :=
  match fields with
  | [] => Ok (acc, failed)
  | (field, k, dflt) :: fields' =>
      match kwargs !! field with
      | None => init_fields fields' kwargs (<[field := dflt]> acc) failed
      | Some v =>
          match check_type k v with
          | None => init_fields fields' kwargs acc true
          | Some v' =>
              match field_validator field v' with
              | Ok v'' => init_fields fields' kwargs (<[field := v'']> acc) failed
              | Raised ValueError => init_fields fields' kwargs acc true
              | Raised e => Raised e
              end
          end
      end
  end.

(** the constructor [Bus] on keyword arguments: the instance (as the dict of its fields), or
    [ValidationError] when a field failed *)
Definition Bus (kwargs : item) : result item :=
  do '(bus, failed) <- init_fields bus_fields kwargs ∅ false;
  if (failed : bool) then Raised ValidationError else Ok bus.

End Models.

(** ** The pipeline: [pipelines.MySQLPipeline] *)
Module Pipelines.
Import PyStr Models.

Section Pipeline.

(** the database, and the body of the [try] block of [process_item] (the
    merges of the bus, image and overview rows, then the commit) as one
    transaction on it *)
Variable Store : Type.
Variable save : item -> Store -> result Store.

(** [f"{bus_data.title}"] *)
Definition title_of (bus_data : item) : string :=
  match item_get "title" bus_data with
  | VStr s => s
  | _ => "None"
  end.

(** [ItemAdapter(item).asdict()] *)
Definition asdict (it : item) : item := it.

(** [MySQLPipeline.process_item]: what it returns or raises, the database
    afterwards, and the log.  [Bus(...)] is built before the [try] block, so
    what it raises leaves [process_item] as it is.  Inside the block an
    exception rolls the session back.  The log lines keep the fixed text and
    the title; the exception text and the row id are left out. *)
Definition process_item (it : item) (db : Store)
  : result item * Store * list log_entry :=
  match Bus (asdict it) with
  | Raised e => (Raised e, db, [])
  | Ok bus_data =>
      match save bus_data db with
      | Ok db' =>
          (Ok it, db', [LogDebug ("Item saved to database: " +:+ title_of bus_data)])
      | Raised IntegrityError =>      (* rollback *)
          (Ok it, db, [LogWarning ("Integrity error for item: " +:+ title_of bus_data)])
      | Raised _ =>                   (* rollback *)
          (Ok it, db, [LogError ("Error processing item: " +:+ title_of bus_data)])
      end
  end.

End Pipeline.

End Pipelines.

(** ** Definitions used by the statements *)

Import PyStr Re Patterns Spider Models Pipelines.

(** the text before the first ['.'], written by recursion on the text *)
Fixpoint before_first_dot (s : string) : string :=
  match s with
  | "" => ""
  | String c t => if Ascii.eqb c "." then "" else String c (before_first_dot t)
  end.

(** the digit characters of a text, in order *)
Fixpoint digits_of (s : string) : string :=
  match s with
  | "" => ""
  | String c t => if isdigit c then String c (digits_of t) else digits_of t
  end.

(** the price normalizer as the specification words it *)
Definition normalizePrice (raw : string) : option string :=
  let remainder := digits_of (before_first_dot raw) in
  match remainder with
  | "" => None
  | _ => Some remainder
  end.

(** [(p', t')] is a position of the text [t] that starts after [p] *)
Inductive position_of : option ascii -> string -> option ascii -> string -> Prop :=
| pos_here p t : position_of p t p t
| pos_later p c t p' t' : position_of (Some c) t p' t' -> position_of p (String c t) p' t'.

(** [extract_price] with the first pattern only *)
Definition extract_price_first_pattern (text : option string) : option string :=
  if negb (truthy_str text) then None
  else
    match search price_re (default "" text) with
    | Some price_match => group price_match 1
    | None => None
    end.

Definition remaining (s : mstate) : nat := String.length (rest s).

Definition ac_row (row : td_sel) : bool := is_match ac_re (extract_text_from_td row).

Definition plain_row (text : string) : td_sel := TdSel [text] None None.

(** the fields the classifier chain may write, [mileage] apart *)
Definition classifier_keys : list string :=
  ["year"; "make"; "model"; "passengers"; "engine"; "transmission"; "gvwr";
   "wheelchair"; "luggage"].


(** *** Pages and records used as examples *)

(** the same response with another status *)
Definition with_status (s : Z) (r : response) : response :=
  Response s (urljoin r) (meta_item r) (img_nodes r) (paragraphs r) (h3_text r)
           (table_rows r) (listing_tables r).

(** the image indices of a group of [n] images: 1..n and -1..-n *)
Definition main_indices (n : nat) : list Z := map Z.of_nat (seq 1 n).
Definition thumbnail_indices (n : nat) : list Z :=
  map (fun i => (- Z.of_nat i)%Z) (seq 1 n).

Definition status_text (s : Z) : string := "Not Found".

Definition site_urljoin (src : option string) : string :=
  "http://absolutebus.com" +:+ default "" src.

(** an [img] element selected by exactly one selector *)
Definition img_of (selector src : string) : img_node :=
  ImgNode None (Some src) None (String.eqb selector).

(** a page with thumbnails and main images interleaved *)
Definition gallery_page : response :=
  Response 200 site_urljoin ∅
    [img_of thumbnails_sel "/t1.jpg"; img_of main_floor_images_sel "/m1.jpg";
     img_of main_floor_images_sel "/m2.jpg"; img_of thumbnails_sel "/t2.jpg";
     img_of main_floor_images_sel "/m3.jpg"]
    [] None [] [].

(** a detail page that came back with status 404 *)
Definition failed_page : response :=
  Response 404 site_urljoin (<["title" := VStr "1998 Blue Bird"]> ∅)
    [] ["Clean bus."] (Some "$9,999")
    [plain_row "45,000 miles"; plain_row "rear A/C"] [].

Definition item_with_mileage : item := <["mileage" := VStr "45,000 "]> ∅.

(** the detail table of the end-to-end scenario *)
Definition scenario_rows : list td_sel :=
  map plain_row
    ["1998 Blue Bird, TC2000"; "77 psssanger"; "45,000 miles"; "Allison automatic";
     "Gross weight 10,000#"; "wheelchair lift available"; "rear A/C"].

Definition scenario_listing : listing_table :=
  ListingTable (Some "1998 Blue Bird, TC2000, 77 pass")
               ["1998 Blue Bird, TC2000, 77 pass"; "Sold"] (Some "/bus/1998-blue-bird").

Definition scenario_listing_page : response :=
  Response 200 site_urljoin ∅ [] [] None [] [scenario_listing].

(** what [parse] yields for the listing row of the scenario *)
Definition scenario_request : request :=
  Request "http://absolutebus.com/bus/1998-blue-bird"
    (<["source_url" := VStr "http://absolutebus.com/bus/1998-blue-bird"]>
     (<["sold" := VInt 1]>
      (<["title" := VStr "1998 Blue Bird, TC2000, 77 pass"]>
       (<["source" := VStr "absolutebus"]> ∅)))).

Definition scenario_detail_page : response :=
  Response 200 site_urljoin (req_item scenario_request) [] []
           (Some "$12,345.00") scenario_rows [].

(** the fields the detail page of the scenario adds to the item of the
    listing row *)
Definition scenario_record (listed : item) (images : list image_item)
    (description price : value) : item :=
  <["bus_overview" := VOverview (OverviewItem (Some "rear A/C"))]>
  (<["wheelchair" := VStr "wheelchair lift available"]>
  (<["gvwr" := VStr "10000"]>
  (<["transmission" := VStr "Allison"]>
  (<["engine" := VNone]>
  (<["mileage" := VStr "45,000 "]>
  (<["passengers" := VStr "77 psssanger"]>
  (<["model" := VStr "TC2000"]>
  (<["make" := VStr "Blue Bird"]>
  (<["year" := VStr "1998"]>
  (<["airconditioning" := VStr "REAR"]>
  (<["price" := price]>
  (<["description" := description]>
  (<["images" := VImages images]> listed))))))))))))).

(** a raw year that [validate_year] does not accept: not an integer
    literal, or an integer outside 1900..2100 *)
Definition invalid_year (raw : string) : Prop :=
  to_int raw = None
  \/ exists n : Z, to_int raw = Some n /\ ~ (1900 <= n <= 2100)%Z.

(** a record with a year before 1900, and a database that stores every
    validated record *)
Definition old_bus : item :=
  <["year" := VStr "1875"]> (<["make" := VStr "Blue Bird"]>
    (<["price" := VStr "12,345.00"]> (<["title" := VStr "1875 Blue Bird"]> ∅))).

Definition save_all (bus : item) (db : list item) : result (list item) := Ok (bus :: db).

(** *** Definitions used by the further properties *)

(** every character of the text is in the class *)
Fixpoint all_chars (p : ascii -> bool) (s : string) : bool :=
  match s with
  | "" => true
  | String c t => p c && all_chars p t
  end.

(** the names of the declared fields of [Bus] *)
Definition bus_field_names : list string := map (fun f => fst (fst f)) bus_fields.

(** the fields [parse_bus_details] may write *)
Definition detail_keys : list string :=
  ["images"; "description"; "price"; "airconditioning"; "mileage"; "bus_overview"]
  ++ classifier_keys.

(** the features text of an item *)
Definition features_of (it : item) : option string :=
  match it !! "bus_overview" with
  | Some (VOverview o) => features o
  | _ => None
  end.

(** the years of the accepted range *)
Definition accepted_years : list Z := map (fun k => (1900 + Z.of_nat k)%Z) (seq 0 201).

(** the text before the first occurrence of a character *)
Fixpoint before_char (sep : ascii) (s : string) : string :=
  match s with
  | "" => ""
  | String c t => if Ascii.eqb c sep then "" else String c (before_char sep t)
  end.

(** group [n] took part in the match so far *)
Definition has_group (n : nat) (s : mstate) : Prop := is_Some (assoc n (caps s)).

(** what the engine/transmission classifier stores in a field: the new
    value unless the field already holds a non-empty one *)
Definition keep_first (key : string) (new : option string) (it : item) : value :=
  if truthy (item_get key it) then item_get key it else vopt new.

(** a page whose table has a Duramax row *)
Definition duramax_page : response :=
  Response 200 site_urljoin ∅ [] [] None
    [plain_row "45,000 miles"; plain_row "Duramax 6.6L turbo diesel"] [].

(** the fields a later row overwrites *)
Definition overwritten_keys : list string :=
  ["year"; "make"; "model"; "passengers"; "gvwr"; "wheelchair"; "luggage"].

(** the fields that keep their first non-empty value *)
Definition first_wins_keys : list string := ["mileage"; "engine"; "transmission"].

(** an item whose engine is already known *)
Definition item_with_engine : item := <["engine" := VStr "DT466 diesel"]> ∅.

(** the text before the first occurrence of a keyword *)
Fixpoint before_first (sep : string) (s : string) : string :=
  match s with
  | "" => ""
  | String c t => if startswith sep s then "" else String c (before_first sep t)
  end.

(** any character but the space *)
Definition not_space (c : ascii) : bool := negb (Ascii.eqb c " ").

(** the item [extract_images] builds for the element at position [i]
    (counted from 0) of a group *)
Definition image_at (r : response) (image_type : string) (i : nat) (img : img_node)
  : image_item :=
  ImageItem
    (match img_alt img with
     | Some alt => if nonempty alt then alt
                   else image_type +:+ "_" +:+ of_Z (Z.of_nat i)
     | None => image_type +:+ "_" +:+ of_Z (Z.of_nat i)
     end)
    (urljoin r (img_src img))
    (img_title img)
    (if String.eqb image_type "thumbnails" then (-1 - Z.of_nat i)%Z
     else if String.eqb image_type "main_images" then (1 + Z.of_nat i)%Z
     else Z.of_nat i).

(** an [img] element with an alt text *)
Definition img_alt_of (selector alt src : string) : img_node :=
  ImgNode (Some alt) (Some src) None (String.eqb selector).

(** a page whose first main image has an alt text and whose second has none *)
Definition named_page : response :=
  Response 200 site_urljoin ∅
    [img_alt_of main_floor_images_sel "Front view" "/m1.jpg";
     img_of main_floor_images_sel "/m2.jpg"]
    [] None [] [].

(** the page with the Duramax row, come back with status 404 *)
Definition duramax_failed_page : response := with_status 404 duramax_page.

(** the fields [parse_bus_details] reads from the page before the row loop *)
Definition page_fields (r : response) : item :=
  <["airconditioning" := vopt (extract_air_conditioning (table_rows r))]>
  (<["price" := vopt (extract_price (h3_text r))]>
  (<["description" := VStr (join "" (map strip (paragraphs r)))]>
  (<["images" := VImages (extract_images r main_floor_images_sel "main_images"
                          ++ extract_images r thumbnails_sel "thumbnails")%list]>
   (meta_item r)))).

(** the line logged for a failing status *)
Definition status_line (rsm : Z -> string) (s : Z) : log_entry :=
  LogError ("Request failed with status: " +:+ of_Z s +:+ " - " +:+ rsm s).

(** * Lemmas *)

(** ** Text lemmas *)

Lemma append_nil_l (s : string) : "" +:+ s = s.
Proof. reflexivity. Qed.

Lemma append_cons (c : ascii) (s t : string) : String c s +:+ t = String c (s +:+ t).
Proof. reflexivity. Qed.

Lemma append_empty_r (s : string) : s +:+ "" = s.
Proof. induction s as [|c s IH]; [reflexivity | now rewrite append_cons, IH]. Qed.

Lemma append_assoc (a b c : string) : (a +:+ b) +:+ c = a +:+ (b +:+ c).
Proof. induction a as [|x a IH]; [reflexivity | now rewrite !append_cons, IH]. Qed.

Lemma startswith_char (a c : ascii) (t : string) :
  startswith (String a "") (String c t) = Ascii.eqb a c.
Proof. simpl. destruct (Ascii.eqb a c); reflexivity. Qed.

Lemma split_go_cons (sep cur : string) (c : ascii) (t : string) :
  split_go sep 0 cur (String c t) =
  if startswith sep (String c t)
  then cur :: split_go sep (String.length sep - 1) "" t
  else split_go sep 0 (cur +:+ String c "") t.
Proof. reflexivity. Qed.

Lemma split_go_dot_hd (s cur : string) :
  hd "" (split_go "." 0 cur s) = cur +:+ before_first_dot s.
Proof.
  revert cur. induction s as [|c t IH]; intros cur.
  - simpl. now rewrite append_empty_r.
  - rewrite split_go_cons, startswith_char, (Ascii.eqb_sym "." c).
    change (before_first_dot (String c t))
      with (if Ascii.eqb c "." then "" else String c (before_first_dot t)).
    destruct (Ascii.eqb c ".").
    + simpl. now rewrite append_empty_r.
    + rewrite IH, append_assoc. reflexivity.
Qed.

Lemma sub_empty_go_D (s : string) : forall fuel p,
  (String.length s <= fuel)%nat -> sub_empty_go D fuel p s = digits_of s.
Proof.
  induction s as [|c t IH]; intros fuel p Hf.
  - destruct fuel; reflexivity.
  - destruct fuel as [|fuel]; [simpl in Hf; lia|].
    simpl in Hf. simpl.
    destruct (isdigit c) eqn:Ed; simpl.
    + rewrite IH by lia. reflexivity.
    + assert (Hlt : (String.length t <? S (String.length t))%nat = true)
        by (apply Nat.ltb_lt; lia).
      rewrite Hlt. simpl. apply IH. lia.
Qed.

Lemma validate_price_spec (raw : string) :
  validate_price (Some raw) = normalizePrice raw.
Proof.
  unfold validate_price, normalizePrice, sub_empty, split.
  rewrite split_go_dot_hd, append_nil_l.
  rewrite sub_empty_go_D by lia.
  destruct (digits_of (before_first_dot raw)); reflexivity.
Qed.

(** ** Matcher lemmas *)

Lemma position_of_trans p t p1 t1 p2 t2 :
  position_of p t p1 t1 -> position_of p1 t1 p2 t2 -> position_of p t p2 t2.
Proof.
  induction 1; intros H2; [exact H2 | constructor; auto].
Qed.

(** a match at some position makes [search_from] succeed *)
Lemma search_from_position r p t p' t' :
  position_of p t p' t' -> match_here r p' t' <> None -> search_from r p t <> None.
Proof.
  induction 1 as [p t | p c t p' t' H IH]; intros Hm.
  - destruct t; simpl; destruct (match_here r p _); congruence.
  - simpl. destruct (match_here r p (String c t)); [congruence | auto].
Qed.

(** a successful [search_from] matched at some position *)
Lemma search_from_found r p t m :
  search_from r p t = Some m ->
  exists p' t', position_of p t p' t' /\ match_here r p' t' = Some m.
Proof.
  revert p. induction t as [|c t IH]; intros p; simpl.
  - destruct (match_here r p "") eqn:E; [|discriminate].
    intros [= <-]. exists p, "". split; [constructor | exact E].
  - destruct (match_here r p (String c t)) eqn:E.
    + intros [= <-]. exists p, (String c t). split; [constructor | exact E].
    + intros H. destruct (IH _ H) as (p' & t' & Hp & Hm).
      exists p', t'. split; [constructor; exact Hp | exact Hm].
Qed.

Lemma rmatch_chr ic c s k :
  rmatch (chr ic c) s k =
  match rest s with
  | String x t =>
      if (if ic then Ascii.eqb (lower_char x) (lower_char c) else Ascii.eqb x c)
      then k (MState (Some x) t (caps s)) else None
  | "" => None
  end.
Proof. reflexivity. Qed.

(** a literal word leaves the captures alone and moves to a later position *)
Lemma rmatch_lit ic w : forall p t cs k e,
  rmatch (lit ic w) (MState p t cs) k = Some e ->
  exists p' t', position_of p t p' t' /\ k (MState p' t' cs) = Some e.
Proof.
  induction w as [|c w IH]; intros p t cs k e H.
  - exists p, t. split; [constructor | exact H].
  - assert (Hstep : rmatch (chr ic c) (MState p t cs)
                      (fun s' => rmatch (lit ic w) s' k) = Some e).
    { destruct w; exact H. }
    rewrite rmatch_chr in Hstep. simpl in Hstep.
    destruct t as [|x t]; [discriminate|].
    destruct (if ic then _ else _); [|discriminate].
    destruct (IH _ _ _ _ _ Hstep) as (p' & t' & Hp & Hk).
    exists p', t'. split; [constructor; exact Hp | exact Hk].
Qed.

(** every match of [starting at \$...] holds a match of [\$...] *)
Lemma starting_at_needs_price (text : string) :
  search price_re text = None -> search starting_at_re text = None.
Proof.
  intros Hnone.
  destruct (search starting_at_re text) as [m|] eqn:Hs; [exfalso | reflexivity].
  apply search_from_found in Hs. destruct Hs as (p1 & t1 & Hp1 & Hm).
  unfold match_here, starting_at_re in Hm.
  change (rmatch (Seq ?a ?b) ?s ?k) with (rmatch a s (fun s' => rmatch b s' k)) in Hm.
  destruct (rmatch _ _ _) as [e|] eqn:He in Hm; [|discriminate].
  apply rmatch_lit in He. destruct He as (p2 & t2 & Hp2 & Hk).
  revert Hnone. apply (search_from_position price_re None text p2 t2).
  - eapply position_of_trans; eassumption.
  - unfold match_here. rewrite Hk. discriminate.
Qed.

Lemma extract_price_one_pattern (text : option string) :
  extract_price text = extract_price_first_pattern text.
Proof.
  unfold extract_price, extract_price_first_pattern.
  destruct (negb (truthy_str text)); [reflexivity|].
  destruct (search price_re (default "" text)) eqn:E; [reflexivity|].
  now rewrite (starting_at_needs_price _ E).
Qed.

(** the matcher only moves forward *)
Lemma star_loop_forward step k
  (Hstep : forall s k' e, step s k' = Some e ->
             exists s', k' s' = Some e /\ (remaining s' <= remaining s)%nat) :
  forall fuel s e, star_loop step k fuel s = Some e ->
    exists s', k s' = Some e /\ (remaining s' <= remaining s)%nat.
Proof.
  induction fuel as [|fuel IH]; intros s e H; simpl in H.
  - exists s. split; [exact H | lia].
  - destruct (step s _) as [e'|] eqn:E.
    + injection H as ->. apply Hstep in E. destruct E as (s1 & H1 & Hle).
      destruct (_ <? _)%nat; [|discriminate].
      apply IH in H1. destruct H1 as (s' & Hk & Hle').
      exists s'. split; [exact Hk | lia].
    + exists s. split; [exact H | lia].
Qed.

Lemma rmatch_forward r : forall s k e,
  rmatch r s k = Some e ->
  exists s', k s' = Some e /\ (remaining s' <= remaining s)%nat.
Proof.
  induction r as [|p|a IHa b IHb|a IHa b IHb|a IHa|n a IHa|]; intros s k e H; simpl in H.
  - exists s. split; [exact H | lia].
  - destruct s as [pv [|c t] cs]; simpl in H; [discriminate|].
    destruct (p c); [|discriminate].
    eexists. split; [exact H | unfold remaining; simpl; lia].
  - apply IHa in H. destruct H as (s1 & H & Hle).
    apply IHb in H. destruct H as (s' & H & Hle').
    exists s'. split; [exact H | lia].
  - destruct (rmatch a s k) as [e'|] eqn:E.
    + injection H as ->. apply IHa. exact E.
    + apply IHb. exact H.
  - apply (star_loop_forward _ _ IHa) in H. exact H.
  - apply IHa in H. destruct H as (s1 & H & Hle).
    eexists. split; [exact H | exact Hle].
  - destruct (xorb _ _); [|discriminate]. exists s. split; [exact H | lia].
Qed.

Lemma consumed_nonempty (s e : mstate) :
  (remaining e < remaining s)%nat -> nonempty (consumed s e) = true.
Proof.
  unfold remaining, consumed. intros H.
  destruct (rest s) as [|c t]; [simpl in H; lia|].
  destruct (String.length (String c t) - String.length (rest e))%nat eqn:E;
    [simpl in *; lia | reflexivity].
Qed.

Lemma rmatch_seq a b s k :
  rmatch (Seq a b) s k = rmatch a s (fun s' => rmatch b s' k).
Proof. reflexivity. Qed.

Lemma rmatch_chr_forward p s k e :
  rmatch (Chr p) s k = Some e ->
  exists s', k s' = Some e /\ (remaining s' < remaining s)%nat.
Proof.
  simpl. destruct s as [pv [|c t] cs]; simpl; [discriminate|].
  destruct (p c); [|discriminate]. intros H.
  eexists. split; [exact H | unfold remaining; simpl; lia].
Qed.

(** a match of the year pattern is not empty *)
Lemma year_match_nonempty p t m :
  match_here year_re p t = Some m -> nonempty (group0 m) = true.
Proof.
  unfold match_here.
  destruct (rmatch year_re (MState p t []) Some) as [e|] eqn:H; [|discriminate].
  intros [= <-]. cbn [group0]. apply consumed_nonempty.
  unfold year_re in H. cbn [seqs] in H.
  rewrite rmatch_seq in H. apply rmatch_forward in H. destruct H as (s0 & H & Hle0).
  rewrite rmatch_seq in H. apply rmatch_forward in H. destruct H as (s1 & H & Hle1).
  rewrite rmatch_seq in H. apply rmatch_chr_forward in H. destruct H as (s2 & H & Hlt).
  apply rmatch_forward in H. destruct H as (s3 & H & Hle3).
  injection H as <-. lia.
Qed.

Lemma find_year_with_space_truthy text :
  find_year_with_space text <> None ->
  truthy_str (find_year_with_space text) = true /\ nonempty text = true.
Proof.
  unfold find_year_with_space. intros H.
  destruct (search year_re text) as [m|] eqn:E; [|congruence]. split.
  - apply search_from_found in E. destruct E as (p' & t' & _ & Hm).
    apply (year_match_nonempty _ _ _ Hm).
  - destruct text; [vm_compute in E; discriminate | reflexivity].
Qed.

(** ** Air conditioning *)

Lemma is_match_nonempty (text : string) :
  is_match ac_re text = true -> nonempty text = true.
Proof. destruct text; [vm_compute; discriminate | reflexivity]. Qed.

Lemma ac_scan_first (pre post : list td_sel) (row : td_sel) : forall text0,
  Forall (fun r => ac_row r = false) pre ->
  ac_row row = true ->
  ac_scan (pre ++ row :: post) text0 =
  (Some (extract_text_from_td row), Some (extract_text_from_td row)).
Proof.
  induction pre as [|r pre IH]; intros text0 Hpre Hrow.
  - simpl. unfold ac_row, is_match in Hrow.
    destruct (search ac_re (extract_text_from_td row)); [reflexivity | discriminate].
  - inversion Hpre as [|? ? Hr Hpre']; subst. simpl.
    unfold ac_row, is_match in Hr.
    destruct (search ac_re (extract_text_from_td r)); [discriminate|].
    apply IH; assumption.
Qed.

Lemma ac_scan_none (rows : list td_sel) : forall text0,
  Forall (fun r => ac_row r = false) rows -> fst (ac_scan rows text0) = None.
Proof.
  induction rows as [|r rows IH]; intros text0 H; [reflexivity|].
  inversion H as [|? ? Hr H']; subst. simpl.
  unfold ac_row, is_match in Hr.
  destruct (search ac_re (extract_text_from_td r)); [discriminate|].
  apply IH; assumption.
Qed.

(** ** The row loop: which fields it writes *)

Ltac other_keys H :=
  rewrite ?lookup_insert_ne by (intros <-; apply H; simpl; tauto).

Lemma find_year_make_model_keeps text (it : item) k :
  ~ In k classifier_keys ->
  snd (find_year_make_model text it) !! k = it !! k.
Proof.
  intros Hk. unfold find_year_make_model.
  destruct (truthy_str _); [|reflexivity].
  destruct (map strip (split "," text)) as [|p0 [|p1 ps]]; try reflexivity.
  destruct (split_ws p0); [reflexivity|].
  cbn [snd]. other_keys Hk. reflexivity.
Qed.

Lemma find_year_make_model_not_found text (it : item) :
  fst (find_year_make_model text it) = false ->
  snd (find_year_make_model text it) = it.
Proof.
  unfold find_year_make_model.
  destruct (truthy_str _); [|reflexivity].
  destruct (map strip (split "," text)) as [|p0 [|p1 ps]]; try reflexivity.
  destruct (split_ws p0); [reflexivity | discriminate].
Qed.

Lemma extract_engine_transmission_keeps text (it it' : item) et k :
  extract_engine_transmission text it = Ok (et, it') ->
  ~ In k classifier_keys ->
  it' !! k = it !! k.
Proof.
  unfold extract_engine_transmission. intros H Hk.
  destruct (match search engine_re text with Some _ => _ | None => _ end)
    as [engine|]; [|discriminate].
  cbn [bind] in H.
  destruct (extract_transmission text) as [transmission|]; [|discriminate].
  cbn [bind] in H. injection H as _ <-.
  other_keys Hk. reflexivity.
Qed.

Lemma extract_gross_weight_keeps text (it it' : item) gw k :
  extract_gross_weight text it = Ok (gw, it') ->
  ~ In k classifier_keys ->
  it' !! k = it !! k.
Proof.
  unfold extract_gross_weight. intros H Hk.
  destruct (search gross_weight_re text) as [m|].
  - destruct (group_str m 1); [|discriminate]. cbn [bind] in H.
    injection H as _ <-. other_keys Hk. reflexivity.
  - injection H as _ <-. reflexivity.
Qed.

(** a row leaves alone every field outside [classifier_keys]; [mileage]
    too, once it holds a non-empty value *)
Lemma classify_row_keeps row (it it' : item) od od' k :
  classify_row row (it, od) = Ok (it', od') ->
  ~ In k classifier_keys ->
  (k = "mileage" -> truthy (item_get "mileage" it) = true) ->
  it' !! k = it !! k.
Proof.
  unfold classify_row. intros H Hk Hm.
  destruct (nonempty _); [|now injection H as <- _].
  pose proof (find_year_make_model_keeps (extract_text_from_td row) it k Hk) as Hy.
  destruct (find_year_make_model _ it) as [found it1]. cbn [snd] in Hy.
  destruct found; [now injection H as <- _|].
  destruct (contains PASSANGER_KEY _).
  { injection H as <- _. other_keys Hk. reflexivity. }
  destruct (contains MILES_KEY _).
  { destruct (truthy (item_get "mileage" it)) eqn:Et; injection H as <- _.
    - reflexivity.
    - rewrite lookup_insert_ne; [reflexivity|].
      intros <-. specialize (Hm eq_refl). discriminate. }
  destruct (extract_engine_transmission _ it) as [[et it2]|] eqn:Ee; [|discriminate].
  cbn [bind] in H.
  pose proof (extract_engine_transmission_keeps _ _ _ _ k Ee Hk) as H2.
  destruct (truthy_str (fst et) || truthy_str (snd et)).
  { injection H as <- _. exact H2. }
  destruct (extract_gross_weight _ it2) as [[gw it3]|] eqn:Eg; [|discriminate].
  cbn [bind] in H.
  pose proof (extract_gross_weight_keeps _ _ _ _ k Eg Hk) as H3.
  destruct gw. { injection H as <- _. congruence. }
  destruct (contains WHEELCHAIR_KEY _).
  { injection H as <- _. other_keys Hk. congruence. }
  destruct (contains LUGGAGE_KEY _).
  { injection H as <- _. unfold LUGGAGE_KEY. other_keys Hk. congruence. }
  injection H as <- _. congruence.
Qed.

Lemma item_get_lookup k (it it' : item) :
  it' !! k = it !! k -> item_get k it' = item_get k it.
Proof. unfold item_get. now intros ->. Qed.

Lemma classify_rows_keeps rows : forall (it it' : item) od od' k,
  classify_rows rows (it, od) = Ok (it', od') ->
  ~ In k classifier_keys ->
  (k = "mileage" -> truthy (item_get "mileage" it) = true) ->
  it' !! k = it !! k.
Proof.
  induction rows as [|row rows IH]; intros it it' od od' k H Hk Hm.
  - cbn [classify_rows] in H. now injection H as <- _.
  - cbn [classify_rows] in H. destruct (classify_row row (it, od)) as [[it1 od1]|] eqn:E1;
      [|discriminate].
    cbn [bind] in H.
    pose proof (classify_row_keeps _ _ _ _ _ k E1 Hk Hm) as H1.
    rewrite <- H1. apply (IH _ _ _ _ _ H Hk).
    intros ->. rewrite (item_get_lookup _ _ _ H1). auto.
Qed.

Lemma mileage_not_in_classifier_keys : ~ In "mileage" classifier_keys.
Proof. unfold classifier_keys. simpl. intuition discriminate. Qed.

(** ** Images *)

Lemma map_imap_index {A B : Type} (h : B -> Z) (g : nat -> Z) (l : list A) :
  forall f : nat -> A -> B,
  (forall i x, h (f i x) = g i) ->
  map h (imap f l) = map g (seq 0 (length l)).
Proof.
  revert g. induction l as [|x l IH]; intros g f Hf; [reflexivity|].
  cbn [imap length seq map]. rewrite Hf. f_equal.
  rewrite <- seq_shift, map_map.
  apply (IH (fun i => g (S i)) (fun i => f (S i))). intros i y. apply Hf.
Qed.

(** the k-th item of a group is built from the k-th selected element *)
Lemma extract_images_at r selector image_type k img :
  css_img r selector !! k = Some img ->
  extract_images r selector image_type !! k = Some (image_at r image_type k img).
Proof.
  intros H. unfold extract_images. rewrite list_lookup_imap, H. cbn [fmap option_fmap option_map].
  unfold image_at. destruct (img_alt img) as [alt|]; [|reflexivity].
  cbn [truthy_str]. destruct (nonempty alt); reflexivity.
Qed.

Lemma extract_images_main r :
  map image_index (extract_images r main_floor_images_sel "main_images")
  = main_indices (length (css_img r main_floor_images_sel)).
Proof.
  unfold extract_images, main_indices.
  rewrite (map_imap_index _ (fun i => (1 + Z.of_nat i)%Z)) by (intros; reflexivity).
  rewrite <- seq_shift, map_map. apply map_ext. intros i. lia.
Qed.

Lemma extract_images_thumbnails r :
  map image_index (extract_images r thumbnails_sel "thumbnails")
  = thumbnail_indices (length (css_img r thumbnails_sel)).
Proof.
  unfold extract_images, thumbnail_indices.
  rewrite (map_imap_index _ (fun i => (-1 - Z.of_nat i)%Z)) by (intros; reflexivity).
  rewrite <- seq_shift, map_map. apply map_ext. intros i. lia.
Qed.

Lemma images_not_in_classifier_keys : ~ In "images" classifier_keys.
Proof. unfold classifier_keys. simpl. intuition discriminate. Qed.

Section CallbackLemmas.
Variable rsm : Z -> string.

(** [parse_bus_details] is the row loop on the fields read from the page,
    then the overview, then the log *)
Lemma parse_bus_details_images r it log :
  parse_bus_details rsm r = Ok ([it], log) ->
  it !! "images"
  = Some (VImages (extract_images r main_floor_images_sel "main_images"
                   ++ extract_images r thumbnails_sel "thumbnails")%list).
Proof.
  unfold parse_bus_details. intros H.
  destruct (classify_rows _ _) as [[it1 od]|] eqn:E; [|discriminate].
  cbn [bind] in H. injection H as <- _.
  rewrite lookup_insert_ne by discriminate.
  rewrite (classify_rows_keeps _ _ _ _ _ "images" E images_not_in_classifier_keys)
    by discriminate.
  rewrite !lookup_insert_ne by discriminate.
  unfold extend_images. rewrite lookup_insert_eq.
  rewrite lookup_insert_eq. rewrite lookup_insert_eq. reflexivity.
Qed.

End CallbackLemmas.


(** ** Validation *)

Lemma split_go_nonempty sep s : forall skip cur, split_go sep skip cur s <> [].
Proof.
  induction s as [|c t IH]; intros skip cur; simpl; [discriminate|].
  destruct skip; [|apply IH].
  destruct (startswith sep (String c t)); [discriminate | apply IH].
Qed.

Lemma validate_make_ok v : exists m, validate_make v = Ok m.
Proof.
  destruct v as [v|]; simpl; [|eauto].
  unfold split. pose proof (split_go_nonempty " " v 0 "") as H.
  destruct (split_go " " 0 "" v); [congruence | eauto].
Qed.

Lemma validate_year_invalid raw :
  invalid_year raw -> validate_year (Some raw) = Raised ValueError.
Proof.
  unfold validate_year. intros [-> | (n & -> & Hn)]; [reflexivity|].
  destruct (negb _) eqn:E; [reflexivity|].
  apply negb_false_iff, andb_true_iff in E. destruct E as [E1 E2].
  apply Z.leb_le in E1. apply Z.leb_le in E2. lia.
Qed.

(** a field validator returns, or raises [ValueError] *)
Lemma field_validator_outcome field v :
  (exists v', field_validator field v = Ok v')
  \/ field_validator field v = Raised ValueError.
Proof.
  unfold field_validator.
  destruct (String.eqb field "price"); [eauto|].
  destruct (String.eqb field "year").
  { unfold validate_year. destruct (as_opt_str v) as [y|]; cbn [bind]; [|eauto].
    destruct (to_int y); [|auto]. destruct (negb _); cbn [bind]; eauto. }
  destruct (String.eqb field "make").
  { destruct (validate_make_ok (as_opt_str v)) as [m ->]. cbn [bind]. eauto. }
  destruct (String.eqb field "wheelchair"); eauto.
Qed.

(** once a field has failed, validation ends with the failure recorded *)
Lemma init_fields_failed fields kwargs : forall acc,
  exists acc', init_fields fields kwargs acc true = Ok (acc', true).
Proof.
  induction fields as [|[[field k] dflt] fields IH]; intros acc; cbn [init_fields].
  - eauto.
  - destruct (kwargs !! field) as [v|]; [|apply IH].
    destruct (check_type k v) as [v'|]; [|apply IH].
    destruct (field_validator_outcome field v') as [[v'' ->] | ->]; apply IH.
Qed.

Lemma init_fields_cons field k dflt fields (kwargs acc : item) failed :
  init_fields ((field, k, dflt) :: fields) kwargs acc failed =
  match kwargs !! field with
  | None => init_fields fields kwargs (<[field := dflt]> acc) failed
  | Some v =>
      match check_type k v with
      | None => init_fields fields kwargs acc true
      | Some v' =>
          match field_validator field v' with
          | Ok v'' => init_fields fields kwargs (<[field := v'']> acc) failed
          | Raised ValueError => init_fields fields kwargs acc true
          | Raised e => Raised e
          end
      end
  end.
Proof. reflexivity. Qed.

Lemma bus_fields_head :
  bus_fields = ("title", KStr, VNone) :: ("year", KStr, VNone) :: tl (tl bus_fields).
Proof. reflexivity. Qed.

Lemma init_fields_invalid_year fields (kwargs : item) raw acc failed :
  kwargs !! "year" = Some (VStr raw) ->
  invalid_year raw ->
  exists acc',
    init_fields (("year", KStr, VNone) :: fields) kwargs acc failed = Ok (acc', true).
Proof.
  intros Hy Hinv. rewrite init_fields_cons, Hy.
  cbn [check_type]. unfold field_validator.
  change (String.eqb "year" "price") with false.
  change (String.eqb "year" "year") with true.
  cbn [as_opt_str]. rewrite (validate_year_invalid _ Hinv). cbn [bind].
  apply init_fields_failed.
Qed.

Lemma Bus_invalid_year (kwargs : item) raw :
  kwargs !! "year" = Some (VStr raw) ->
  invalid_year raw ->
  Bus kwargs = Raised ValidationError.
Proof.
  intros Hy Hinv. unfold Bus. rewrite bus_fields_head.
  generalize (tl (tl bus_fields)) as fields. intros fields.
  rewrite init_fields_cons.
  destruct (kwargs !! "title") as [v|].
  - destruct (check_type KStr v) as [v'|].
    + change (field_validator "title" v') with (Ok (A:=value) v').
      destruct (init_fields_invalid_year fields kwargs raw (<["title" := v']> ∅) false Hy Hinv)
        as [acc' ->].
      reflexivity.
    + destruct (init_fields_invalid_year fields kwargs raw ∅ true Hy Hinv) as [acc' ->].
      reflexivity.
  - destruct (init_fields_invalid_year fields kwargs raw (<["title" := VNone]> ∅) false Hy Hinv)
      as [acc' ->].
    reflexivity.
Qed.


(** * The claims *)

(** C1 (as amended).  The end-to-end scenario: a listing row whose text
    contains "Sold", then a detail page whose table rows are
    "1998 Blue Bird, TC2000", "77 psssanger", "45,000 miles",
    "Allison automatic", "Gross weight 10,000#", "wheelchair lift available",
    "rear A/C".  The item yielded has year "1998", make "Blue Bird", model
    "TC2000", sold 1, passengers "77 psssanger", mileage "45,000 ",
    transmission "Allison", gvwr "10000", wheelchair
    "wheelchair lift available" and airconditioning "REAR". *)
Theorem end_to_end_record (rsm : Z -> string) (listing detail : response)
    (table : listing_table) (req : request) :
  contains "Sold" (join "" (all_text table)) = true ->
  parse_table listing table = Some req ->
  meta_item detail = req_item req ->
  table_rows detail = scenario_rows ->
  exists (it : item) (log : list log_entry),
    parse_bus_details rsm detail = Ok ([it], log)
    /\ it !! "year" = Some (VStr "1998")
    /\ it !! "make" = Some (VStr "Blue Bird")
    /\ it !! "model" = Some (VStr "TC2000")
    /\ it !! "sold" = Some (VInt 1)
    /\ it !! "passengers" = Some (VStr "77 psssanger")
    /\ it !! "mileage" = Some (VStr "45,000 ")
    /\ it !! "transmission" = Some (VStr "Allison")
    /\ it !! "gvwr" = Some (VStr "10000")
    /\ it !! "wheelchair" = Some (VStr "wheelchair lift available")
    /\ it !! "airconditioning" = Some (VStr "REAR").
Proof.
  intros Hsold Hreq Hmeta Hrows.
  unfold parse_table, is_bus_sold in Hreq. rewrite Hsold in Hreq.
  destruct (truthy_str (href table)); [|discriminate].
  injection Hreq as <-. cbn [req_item] in Hmeta.
  exists (scenario_record (meta_item detail)
            (extract_images detail main_floor_images_sel "main_images"
             ++ extract_images detail thumbnails_sel "thumbnails")%list
            (VStr (join "" (map strip (paragraphs detail))))
            (vopt (extract_price (h3_text detail)))),
         (request_failed rsm detail).
  split.
  - unfold parse_bus_details. rewrite Hrows, Hmeta.
    generalize (request_failed rsm detail) as log.
    generalize (extract_images detail main_floor_images_sel "main_images") as mains.
    generalize (extract_images detail thumbnails_sel "thumbnails") as thumbs.
    generalize (urljoin listing (Some (strip (default "" (href table))))) as full_url.
    generalize (join "" (map strip (paragraphs detail))) as description_text.
    generalize (vopt (extract_price (h3_text detail))) as price.
    generalize (if truthy_str (title_text table)
                then VStr (strip (default "" (title_text table))) else VNone) as title.
    intros. reflexivity.
  - unfold scenario_record. rewrite Hmeta. repeat split; reflexivity.
Qed.

Lemma end_to_end_record_witness :
  exists (it : item) (log : list log_entry),
    parse_bus_details status_text scenario_detail_page = Ok ([it], log)
    /\ it !! "year" = Some (VStr "1998")
    /\ it !! "make" = Some (VStr "Blue Bird")
    /\ it !! "model" = Some (VStr "TC2000")
    /\ it !! "sold" = Some (VInt 1)
    /\ it !! "passengers" = Some (VStr "77 psssanger")
    /\ it !! "mileage" = Some (VStr "45,000 ")
    /\ it !! "transmission" = Some (VStr "Allison")
    /\ it !! "gvwr" = Some (VStr "10000")
    /\ it !! "wheelchair" = Some (VStr "wheelchair lift available")
    /\ it !! "airconditioning" = Some (VStr "REAR").
Proof.
  apply (end_to_end_record status_text scenario_listing_page scenario_detail_page
           scenario_listing scenario_request).
  - vm_compute. reflexivity.
  - vm_compute. reflexivity.
  - reflexivity.
  - reflexivity.
Defined.

(** C1, as stated, fails: on the row "Allison automatic" the prioritized
    transmission pattern matches its first alternative, "Allison", and the
    item of the scenario has transmission "Allison", not
    "Allison automatic". *)
Lemma end_to_end_transmission_is_allison :
  extract_transmission "Allison automatic" = Ok (Some "Allison")
  /\ exists (it : item) (log : list log_entry),
       parse_bus_details status_text scenario_detail_page = Ok ([it], log)
       /\ it !! "transmission" = Some (VStr "Allison")
       /\ it !! "transmission" <> Some (VStr "Allison automatic").
Proof.
  split; [reflexivity|].
  exists (scenario_record (req_item scenario_request) [] (VStr "") (VStr "12,345.00")), [].
  split; [reflexivity|].
  split; [reflexivity | discriminate].
Qed.

(** C2 (as amended).  A row in which the year pattern is found, which has at
    least two comma-separated segments and whose first segment has a first
    word, is classified as Year/Make/Model: year, make and model are set
    from it and the mileage field is left as it was, whether or not the row
    contains "miles". *)
Theorem year_row_never_mileage (row : td_sel) (it : item) (od : list string)
    (p0 p1 year : string) (ps make_words : list string) :
  find_year_with_space (extract_text_from_td row) <> None ->
  map strip (split "," (extract_text_from_td row)) = p0 :: p1 :: ps ->
  split_ws p0 = year :: make_words ->
  exists it' : item,
    classify_row row (it, od) = Ok (it', od)
    /\ it' !! "year" = Some (VStr year)
    /\ it' !! "make" = Some (VStr (join " " make_words))
    /\ it' !! "model" = Some (VStr (strip p1))
    /\ it' !! "mileage" = it !! "mileage".
Proof.
  intros Hy Hparts Hws.
  destruct (find_year_with_space_truthy _ Hy) as [Ht Hne].
  eexists. split.
  - unfold classify_row, find_year_make_model.
    rewrite Hne, Ht, Hparts, Hws. reflexivity.
  - repeat split.
    + rewrite lookup_insert_ne by discriminate.
      rewrite lookup_insert_ne by discriminate.
      apply lookup_insert_eq.
    + rewrite lookup_insert_ne by discriminate. apply lookup_insert_eq.
    + apply lookup_insert_eq.
    + rewrite !lookup_insert_ne by discriminate. reflexivity.
Qed.

Lemma year_row_never_mileage_witness :
  exists it' : item,
    classify_row (plain_row "2004 Blue Bird, low miles") (item_with_mileage, [])
      = Ok (it', [])
    /\ it' !! "year" = Some (VStr "2004")
    /\ it' !! "make" = Some (VStr "Blue Bird")
    /\ it' !! "model" = Some (VStr "low miles")
    /\ it' !! "mileage" = item_with_mileage !! "mileage".
Proof.
  apply (year_row_never_mileage (plain_row "2004 Blue Bird, low miles")
           item_with_mileage [] "2004 Blue Bird" "low miles" "2004" [] ["Blue"; "Bird"]).
  - vm_compute. discriminate.
  - vm_compute. reflexivity.
  - vm_compute. reflexivity.
Defined.

(** C2, as stated, fails: the row "1998 bus 45000 miles" holds a year
    followed by a space and the word "miles", has no comma, is not
    classified as Year/Make/Model, and sets the mileage field. *)
Lemma year_and_miles_row_sets_mileage :
  find_year_with_space "1998 bus 45000 miles" = Some "1998 "
  /\ contains MILES_KEY (lower "1998 bus 45000 miles") = true
  /\ classify_row (plain_row "1998 bus 45000 miles") (∅, [])
     = Ok (<["mileage" := VStr "1998 bus 45000 "]> ∅, []).
Proof. repeat split; reflexivity. Qed.

(** C3 (as amended).  For a record whose raw year is not an integer
    literal, or is an integer outside 1900..2100, the year validator raises,
    the construction of the validated record fails with a validation error,
    and [process_item] raises it before the database is touched: nothing is
    stored for that record. *)
Theorem invalid_year_rejects_record (Store : Type)
    (save : item -> Store -> result Store) (it : item) (db : Store) (raw : string) :
  it !! "year" = Some (VStr raw) ->
  invalid_year raw ->
  validate_year (Some raw) = Raised ValueError
  /\ Bus (asdict it) = Raised ValidationError
  /\ process_item Store save it db = (Raised ValidationError, db, []).
Proof.
  intros Hy Hinv. split; [apply validate_year_invalid; exact Hinv|].
  pose proof (Bus_invalid_year (asdict it) raw Hy Hinv) as Hb.
  split; [exact Hb|]. unfold process_item. rewrite Hb. reflexivity.
Qed.

Lemma invalid_year_rejects_record_witness :
  validate_year (Some "1875") = Raised ValueError
  /\ Bus (asdict old_bus) = Raised ValidationError
  /\ process_item (list item) save_all old_bus [] = (Raised ValidationError, [], []).
Proof.
  apply (invalid_year_rejects_record (list item) save_all old_bus [] "1875").
  - vm_compute. reflexivity.
  - right. exists 1875%Z. split; [vm_compute; reflexivity | lia].
Defined.

(** C3, as stated, fails: for the record with year "1875" no validated
    record is produced and the database stays empty, although it stores
    every record it is given. *)
Lemma invalid_year_drops_record :
  invalid_year "1875"
  /\ Bus (asdict old_bus) = Raised ValidationError
  /\ process_item (list item) save_all old_bus [] = (Raised ValidationError, [], []).
Proof.
  split; [right; exists 1875%Z; split; [vm_compute; reflexivity | lia]|].
  split; reflexivity.
Qed.

(** C4.  For every raw price, the price normalizer returns the digit
    characters of the part before the first '.', and null when there is
    none; "$12,345.67" gives "12345" and "$999" gives "999". *)
Theorem validate_price_digits_before_dot (raw : string) :
  validate_price (Some raw) = normalizePrice raw
  /\ validate_price (Some "$12,345.67") = Some "12345"
  /\ validate_price (Some "$999") = Some "999".
Proof.
  split; [apply validate_price_spec | split; vm_compute; reflexivity].
Qed.

(** C5 on the failing input.  The first "miles" row "45,000 Miles" is found
    without regard to case but split on the lower-case keyword: the whole
    row is stored, not the text before the keyword.  With the keyword in
    lower case the text before it is stored. *)
Theorem mileage_capitalised_keyword :
  classify_row (plain_row "45,000 Miles") (∅, [])
    = Ok (<["mileage" := VStr "45,000 Miles"]> ∅, [])
  /\ classify_row (plain_row "45,000 miles") (∅, [])
    = Ok (<["mileage" := VStr "45,000 "]> ∅, []).
Proof. split; reflexivity. Qed.

(** C6 (as amended).  Once the mileage field holds a non-empty value, no
    later row of the detail table changes it, whether or not the row
    contains "miles". *)
Theorem mileage_kept_once_nonempty (rows : list td_sel) (it it' : item)
    (od od' : list string) :
  truthy (item_get "mileage" it) = true ->
  classify_rows rows (it, od) = Ok (it', od') ->
  it' !! "mileage" = it !! "mileage".
Proof.
  intros Ht H.
  apply (classify_rows_keeps rows it it' od od' "mileage" H
           mileage_not_in_classifier_keys).
  intros _. exact Ht.
Qed.

Lemma mileage_kept_once_nonempty_witness :
  (<["passengers" := VStr "77 psssanger"]> item_with_mileage : item) !! "mileage"
  = item_with_mileage !! "mileage".
Proof.
  apply (mileage_kept_once_nonempty
           [plain_row "9 miles to go"; plain_row "77 psssanger"]
           item_with_mileage _ [] []).
  - reflexivity.
  - reflexivity.
Defined.

(** C6, as stated, fails: the row "miles to go" sets the mileage field to
    the empty text, and the later row "45,000 miles" sets it again. *)
Lemma mileage_assigned_twice :
  exists it1 it2 : item,
    classify_rows [plain_row "miles to go"] (∅, []) = Ok (it1, [])
    /\ it1 !! "mileage" = Some (VStr "")
    /\ classify_rows [plain_row "45,000 miles"] (it1, []) = Ok (it2, [])
    /\ it2 !! "mileage" = Some (VStr "45,000 ")
    /\ classify_rows [plain_row "miles to go"; plain_row "45,000 miles"] (∅, [])
       = Ok (it2, []).
Proof.
  exists (<["mileage" := VStr ""]> ∅), (<["mileage" := VStr "45,000 "]> ∅).
  repeat split; reflexivity.
Qed.

(** C7.  With M images selected by the main/floor-plan selector and T by the
    thumbnail selector, wherever they stand in the page, the main group has
    the indices 1..M and the thumbnail group -1..-T in page order: the
    element at position k (from 0) of the elements a selector selects, in
    document order, gives the k-th item of its group, with that element's
    URL and title, and the index 1+k (main) or -1-k (thumbnail).  The image
    list of the item yielded is the main group followed by the thumbnail
    group. *)
Theorem image_indices_by_group (rsm : Z -> string) (r : response) :
  let mains := css_img r main_floor_images_sel in
  let thumbs := css_img r thumbnails_sel in
  let images := (extract_images r main_floor_images_sel "main_images"
                 ++ extract_images r thumbnails_sel "thumbnails")%list in
  map image_index (extract_images r main_floor_images_sel "main_images")
    = main_indices (length mains)
  /\ map image_index (extract_images r thumbnails_sel "thumbnails")
    = thumbnail_indices (length thumbs)
  /\ (forall k img,
        mains !! k = Some img ->
        exists im,
          extract_images r main_floor_images_sel "main_images" !! k = Some im
          /\ image_index im = (1 + Z.of_nat k)%Z
          /\ url im = urljoin r (img_src img)
          /\ description im = img_title img)
  /\ (forall k img,
        thumbs !! k = Some img ->
        exists im,
          extract_images r thumbnails_sel "thumbnails" !! k = Some im
          /\ image_index im = (-1 - Z.of_nat k)%Z
          /\ url im = urljoin r (img_src img)
          /\ description im = img_title img)
  /\ forall it log,
       parse_bus_details rsm r = Ok ([it], log) ->
       it !! "images" = Some (VImages images)
       /\ map image_index images
          = (main_indices (length mains) ++ thumbnail_indices (length thumbs))%list.
Proof.
  intros mains thumbs images. split; [apply extract_images_main|].
  split; [apply extract_images_thumbnails|]. split; [|split].
  - intros k img H. exists (image_at r "main_images" k img).
    split; [apply extract_images_at; exact H|]. repeat split.
  - intros k img H. exists (image_at r "thumbnails" k img).
    split; [apply extract_images_at; exact H|]. repeat split.
  - intros it log H. split; [apply (parse_bus_details_images rsm r it log H)|].
    unfold images. rewrite map_app, extract_images_main, extract_images_thumbnails.
    reflexivity.
Qed.

Lemma image_indices_by_group_witness :
  (exists im,
     extract_images gallery_page main_floor_images_sel "main_images" !! 2%nat = Some im
     /\ image_index im = 3%Z
     /\ url im = "http://absolutebus.com/m3.jpg"
     /\ description im = None)
  /\ exists (it : item) (imgs : list image_item),
       parse_bus_details status_text gallery_page = Ok ([it], [])
       /\ it !! "images" = Some (VImages imgs)
       /\ map (fun im => (url im, image_index im)) imgs
          = [("http://absolutebus.com/m1.jpg", 1%Z); ("http://absolutebus.com/m2.jpg", 2%Z);
             ("http://absolutebus.com/m3.jpg", 3%Z); ("http://absolutebus.com/t1.jpg", (-1)%Z);
             ("http://absolutebus.com/t2.jpg", (-2)%Z)].
Proof.
  destruct (image_indices_by_group status_text gallery_page) as (_ & _ & Hmain & _ & Hitem).
  split.
  - apply (Hmain 2%nat (img_of main_floor_images_sel "/m3.jpg")). reflexivity.
  - eexists. eexists. split; [reflexivity|]. split.
    + apply (proj1 (Hitem _ [] eq_refl)).
    + reflexivity.
Defined.

(** C8.  The air-conditioning scan stops at the first row that matches
    A/C, AC, Air conditioning or BTU and decides the category from that row
    alone; without a matching row the result is null; a REAR row followed by
    a DASH row gives REAR. *)
Theorem air_conditioning_first_match :
  (forall (pre post : list td_sel) (row : td_sel),
     Forall (fun r => ac_row r = false) pre ->
     ac_row row = true ->
     extract_air_conditioning (pre ++ row :: post)
       = Some (ac_category (extract_text_from_td row)))
  /\ (forall rows : list td_sel,
        Forall (fun r => ac_row r = false) rows ->
        extract_air_conditioning rows = None)
  /\ extract_air_conditioning [plain_row "rear A/C"; plain_row "dash A/C"] = Some "REAR".
Proof.
  split; [|split].
  - intros pre post row Hpre Hrow. unfold extract_air_conditioning.
    rewrite (ac_scan_first pre post row None Hpre Hrow).
    cbn [truthy_str]. rewrite (is_match_nonempty _ Hrow). reflexivity.
  - intros rows Hrows. unfold extract_air_conditioning.
    pose proof (ac_scan_none rows None Hrows) as Hn.
    destruct (ac_scan rows None) as [a t]. simpl in Hn. subst a. reflexivity.
  - vm_compute. reflexivity.
Qed.

Lemma air_conditioning_first_match_witness :
  extract_air_conditioning
    ([plain_row "45,000 miles"] ++ plain_row "Front and rear AC" :: [plain_row "dash A/C"])
    = Some "BOTH"
  /\ extract_air_conditioning [plain_row "45,000 miles"] = None.
Proof.
  split.
  - apply (proj1 air_conditioning_first_match
             [plain_row "45,000 miles"] [plain_row "dash A/C"] (plain_row "Front and rear AC")).
    + repeat constructor.
    + vm_compute. reflexivity.
  - apply (proj1 (proj2 air_conditioning_first_match)). repeat constructor.
Defined.

(** C9 on the failing input.  A detail page whose table has the row
    "Duramax 6.6L turbo diesel" and that came back with status 404: the
    method call on [group(1)] of the engine family match raises
    [AttributeError], so no item is yielded and no line is logged; the same
    page with status 200 raises as well. *)
Theorem failing_status_family_row_raises (rsm : Z -> string) :
  (400 < status duramax_failed_page)%Z
  /\ table_rows duramax_failed_page
     = [plain_row "45,000 miles"; plain_row "Duramax 6.6L turbo diesel"]
  /\ parse_bus_details rsm duramax_failed_page = Raised AttributeError
  /\ parse_bus_details rsm (with_status 200 duramax_failed_page) = Raised AttributeError.
Proof. repeat split. Qed.

(** C10.  [extract_price] returns, for every text, what a search for its
    first pattern alone returns: the "starting at" branch is never the one
    that answers. *)
Theorem extract_price_fallback_unreachable (text : option string) :
  extract_price text = extract_price_first_pattern text.
Proof. apply extract_price_one_pattern. Qed.

(** * Further properties *)

(** ** The validators *)

Lemma digits_of_all_digits s : all_chars isdigit (digits_of s) = true.
Proof.
  induction s as [|c t IH]; [reflexivity|]. cbn [digits_of].
  destruct (isdigit c) eqn:E; [|exact IH]. cbn [all_chars]. now rewrite E.
Qed.

Lemma digits_of_fixed s : all_chars isdigit s = true -> digits_of s = s.
Proof.
  induction s as [|c t IH]; [reflexivity|]. cbn [all_chars digits_of].
  intros H. apply andb_true_iff in H. destruct H as [Hc Ht].
  rewrite Hc, (IH Ht). reflexivity.
Qed.

Lemma isdigit_not_dot c : isdigit c = true -> Ascii.eqb c "." = false.
Proof.
  intros H. destruct (Ascii.eqb c ".") eqn:E; [|reflexivity].
  apply Ascii.eqb_eq in E. subst c. discriminate H.
Qed.

Lemma before_first_dot_fixed s : all_chars isdigit s = true -> before_first_dot s = s.
Proof.
  induction s as [|c t IH]; [reflexivity|]. cbn [all_chars before_first_dot].
  intros H. apply andb_true_iff in H. destruct H as [Hc Ht].
  rewrite (isdigit_not_dot _ Hc), (IH Ht). reflexivity.
Qed.

(** X1.  A validated price is a non-empty text of decimal digits, and
    validating it again gives it back. *)
Theorem validate_price_canonical (raw digits : string) :
  validate_price (Some raw) = Some digits ->
  nonempty digits = true
  /\ all_chars isdigit digits = true
  /\ validate_price (Some digits) = Some digits.
Proof.
  rewrite !validate_price_spec. unfold normalizePrice.
  pose proof (digits_of_all_digits (before_first_dot raw)) as Hd.
  destruct (digits_of (before_first_dot raw)) as [|c t] eqn:E; [discriminate|].
  intros [= <-]. split; [reflexivity|]. split; [exact Hd|].
  rewrite (before_first_dot_fixed _ Hd), (digits_of_fixed _ Hd). reflexivity.
Qed.

Lemma validate_price_canonical_witness :
  nonempty "12345" = true
  /\ all_chars isdigit "12345" = true
  /\ validate_price (Some "12345") = Some "12345".
Proof.
  apply (validate_price_canonical "starting at $12,345.67" "12345"). reflexivity.
Defined.

Lemma accepted_years_complete n : (1900 <= n <= 2100)%Z -> In n accepted_years.
Proof.
  intros H. unfold accepted_years. apply in_map_iff.
  exists (Z.to_nat (n - 1900)). split; [lia|]. apply in_seq. lia.
Qed.

Lemma accepted_years_round_trip :
  forallb (fun n => match to_int (of_Z n) with
                    | Some m => (m =? n)%Z && (String.length (of_Z n) =? 4)%nat
                    | None => false
                    end) accepted_years = true.
Proof. vm_compute. reflexivity. Qed.

Lemma year_round_trip n :
  (1900 <= n <= 2100)%Z -> to_int (of_Z n) = Some n /\ String.length (of_Z n) = 4%nat.
Proof.
  intros H. pose proof accepted_years_round_trip as Hall.
  rewrite forallb_forall in Hall. specialize (Hall n (accepted_years_complete n H)).
  destruct (to_int (of_Z n)) as [m|]; [|discriminate].
  apply andb_true_iff in Hall. destruct Hall as [Hm Hl].
  apply Z.eqb_eq in Hm. apply Nat.eqb_eq in Hl. subst m. split; [reflexivity | exact Hl].
Qed.

(** X2.  A raw year that reads as an integer between 1900 and 2100 is
    accepted whatever its spelling (spaces, sign, leading zeros, underscores)
    and comes back as the four-character decimal text of that integer, which
    the validator accepts unchanged. *)
Theorem validate_year_canonical (raw : string) (n : Z) :
  to_int raw = Some n ->
  (1900 <= n <= 2100)%Z ->
  validate_year (Some raw) = Ok (Some (of_Z n))
  /\ String.length (of_Z n) = 4%nat
  /\ validate_year (Some (of_Z n)) = Ok (Some (of_Z n)).
Proof.
  intros Hraw Hn. destruct (year_round_trip n Hn) as [Hrt Hlen].
  assert (Hin : negb ((1900 <=? n)%Z && (n <=? 2100)%Z) = false).
  { apply negb_false_iff, andb_true_iff. split; apply Z.leb_le; lia. }
  unfold validate_year. rewrite Hraw, Hrt, Hin. auto.
Qed.

Lemma validate_year_canonical_witness :
  validate_year (Some " +01_998 ") = Ok (Some "1998")
  /\ String.length "1998" = 4%nat
  /\ validate_year (Some "1998") = Ok (Some "1998").
Proof.
  apply (validate_year_canonical " +01_998 " 1998); [reflexivity | lia].
Defined.

Lemma take_length n : forall s, String.length (PyStr.take n s) = Nat.min n (String.length s).
Proof.
  induction n as [|n IH]; intros [|c t]; simpl; try reflexivity. now rewrite IH.
Qed.

Lemma take_all n : forall s, (String.length s <= n)%nat -> PyStr.take n s = s.
Proof.
  induction n as [|n IH]; intros [|c t] H; simpl in *; try reflexivity; try lia.
  rewrite IH by lia. reflexivity.
Qed.

(** X3.  The validated wheelchair text is the first 60 characters of the
    trimmed text: at most 60 characters, exactly 60 when the trimmed text is
    longer, the trimmed text itself when it is not. *)
Theorem validate_wheelchair_bound (v : string) :
  exists w : string,
    validate_wheelchair (Some v) = Some w
    /\ w = PyStr.take 60 (strip v)
    /\ (String.length w <= 60)%nat
    /\ ((60 < String.length (strip v))%nat -> String.length w = 60%nat)
    /\ ((String.length (strip v) <= 60)%nat -> w = strip v).
Proof.
  unfold validate_wheelchair.
  destruct (60 <? String.length (strip v))%nat eqn:E.
  - apply Nat.ltb_lt in E. eexists. split; [reflexivity|].
    split; [reflexivity|]. rewrite take_length. repeat split; lia.
  - apply Nat.ltb_ge in E. exists (strip v). split; [reflexivity|].
    split; [symmetry; apply take_all; exact E|]. repeat split; lia.
Qed.

Lemma split_go_char_hd (sep : ascii) (s cur : string) :
  hd "" (split_go (String sep "") 0 cur s) = cur +:+ before_char sep s.
Proof.
  revert cur. induction s as [|c t IH]; intros cur.
  - simpl. now rewrite append_empty_r.
  - rewrite split_go_cons, startswith_char, (Ascii.eqb_sym sep c).
    change (before_char sep (String c t))
      with (if Ascii.eqb c sep then "" else String c (before_char sep t)).
    destruct (Ascii.eqb c sep).
    + simpl. now rewrite append_empty_r.
    + rewrite IH, append_assoc. reflexivity.
Qed.

Lemma before_char_free sep s :
  all_chars (fun c => negb (Ascii.eqb c sep)) (before_char sep s) = true.
Proof.
  induction s as [|c t IH]; [reflexivity|]. cbn [before_char].
  destruct (Ascii.eqb c sep) eqn:E; [reflexivity|]. cbn [all_chars]. now rewrite E.
Qed.

Lemma before_char_prefix sep s :
  s = before_char sep s
  \/ exists rest, s = before_char sep s +:+ String sep "" +:+ rest.
Proof.
  induction s as [|c t IH]; [left; reflexivity|]. cbn [before_char].
  destruct (Ascii.eqb c sep) eqn:E.
  - apply Ascii.eqb_eq in E. subst c. right. exists t. reflexivity.
  - destruct IH as [IH | [rest IH]].
    + left. now rewrite <- IH.
    + right. exists rest. rewrite append_cons. now rewrite <- IH.
Qed.

Lemma validate_make_before_space (v : string) :
  exists w : string,
    validate_make (Some v) = Ok (Some w)
    /\ all_chars (fun c => negb (Ascii.eqb c " ")) w = true
    /\ (v = w \/ exists rest, v = w +:+ " " +:+ rest).
Proof.
  exists (before_char " " v). split.
  - unfold validate_make, split.
    pose proof (split_go_char_hd " " v "") as Hhd.
    pose proof (split_go_nonempty " " v 0 "") as Hne.
    destruct (split_go " " 0 "" v) as [|w ws]; [congruence|].
    cbn [hd] in Hhd. rewrite Hhd, append_nil_l. reflexivity.
  - split; [apply before_char_free | apply before_char_prefix].
Qed.

(** X4.  The make validator never raises: it returns the text before the
    first space, which holds no space and is followed in the raw text by a
    space or by nothing (the empty text when the raw text starts with a
    space). *)
Theorem validate_make_first_word (v : string) :
  exists w : string,
    validate_make (Some v) = Ok (Some w)
    /\ all_chars (fun c => negb (Ascii.eqb c " ")) w = true
    /\ (v = w \/ exists rest, v = w +:+ " " +:+ rest).
Proof. exact (validate_make_before_space v). Qed.

(** ** The validated record and the pipeline *)

Lemma init_fields_outcome fields kwargs : forall acc failed,
  exists acc' failed',
    init_fields fields kwargs acc failed = Ok (acc', failed')
    /\ (failed = true -> failed' = true).
Proof.
  induction fields as [|[[field k] dflt] fields IH]; intros acc failed.
  - exists acc, failed. split; [reflexivity | auto].
  - rewrite init_fields_cons.
    destruct (kwargs !! field) as [v|]; [|apply IH].
    destruct (check_type k v) as [v'|].
    + destruct (field_validator_outcome field v') as [[v'' ->] | ->]; [apply IH|].
      destruct (IH acc true) as (acc' & failed' & H & Hf).
      exists acc', failed'. split; [exact H | auto].
    + destruct (IH acc true) as (acc' & failed' & H & Hf).
      exists acc', failed'. split; [exact H | auto].
Qed.

Lemma init_fields_not_recovered fields kwargs acc acc' :
  init_fields fields kwargs acc true <> Ok (acc', false).
Proof.
  destruct (init_fields_failed fields kwargs acc) as [acc'' H]. rewrite H. congruence.
Qed.

Lemma init_fields_dom fields kwargs : forall acc failed acc',
  init_fields fields kwargs acc failed = Ok (acc', false) ->
  forall k, is_Some (acc' !! k)
            <-> is_Some (acc !! k) \/ In k (map (fun f => fst (fst f)) fields).
Proof.
  induction fields as [|[[field kd] dflt] fields IH]; intros acc failed acc' H k.
  - cbn [init_fields] in H. injection H as <- _. simpl. tauto.
  - rewrite init_fields_cons in H. cbn [map fst In].
    assert (Hins : forall x acc0,
               init_fields fields kwargs (<[field := x]> acc0) failed = Ok (acc', false) ->
               is_Some (acc' !! k) <-> is_Some (acc0 !! k) \/ field = k \/
                 In k (map (fun f => fst (fst f)) fields)).
    { intros x acc0 H0. rewrite (IH _ _ _ H0 k), lookup_insert_is_Some.
      destruct (decide (field = k)); tauto. }
    destruct (kwargs !! field) as [v|]; [|apply (Hins _ _ H)].
    destruct (check_type kd v) as [v'|];
      [|exfalso; exact (init_fields_not_recovered _ _ _ _ H)].
    destruct (field_validator field v') as [v''|e]; [apply (Hins _ _ H)|].
    destruct e; try discriminate H.
    exfalso; exact (init_fields_not_recovered _ _ _ _ H).
Qed.

Lemma Bus_ok_or_validation_error (kwargs : item) :
  (exists bus : item,
     Bus kwargs = Ok bus
     /\ forall k, is_Some (bus !! k) <-> In k bus_field_names)
  \/ Bus kwargs = Raised ValidationError.
Proof.
  unfold Bus.
  destruct (init_fields_outcome bus_fields kwargs ∅ false) as (acc' & failed' & H & _).
  rewrite H. cbn [bind]. destruct failed'; [right; reflexivity|].
  left. exists acc'. split; [reflexivity|]. intros k.
  rewrite (init_fields_dom _ _ _ _ _ H k), lookup_empty.
  unfold bus_field_names. split; [intros [[x Hx]|Hin]; [discriminate | exact Hin] | auto].
Qed.

(** X5.  Building a [Bus] either fails with a validation error, the only
    exception it raises, or gives an instance that has every declared field
    and no other: keys of the item that are not fields of [Bus] are
    dropped. *)
Theorem Bus_outcome (kwargs : item) :
  (exists bus : item,
     Bus kwargs = Ok bus
     /\ forall k, is_Some (bus !! k) <-> In k bus_field_names)
  \/ Bus kwargs = Raised ValidationError.
Proof. exact (Bus_ok_or_validation_error kwargs). Qed.

(** X6.  [process_item] raises nothing but the validation error of [Bus],
    and then leaves the database and the log alone; in every other case it
    returns the item it was given, also when saving fails, and the database
    is either unchanged or what a successful save of the validated record
    made of it. *)
Theorem process_item_outcome (Store : Type) (save : item -> Store -> result Store)
    (it : item) (db : Store) :
  (fst (fst (process_item Store save it db)) = Ok it
   /\ (snd (fst (process_item Store save it db)) = db
       \/ exists bus, Bus (asdict it) = Ok bus
                      /\ save bus db = Ok (snd (fst (process_item Store save it db)))))
  \/ process_item Store save it db = (Raised ValidationError, db, []).
Proof.
  unfold process_item.
  destruct (Bus_ok_or_validation_error (asdict it)) as [(bus & Hb & _) | Hb]; rewrite Hb.
  - left. destruct (save bus db) as [db'|e] eqn:Es.
    + split; [reflexivity|]. right. exists bus. split; [reflexivity | exact Es].
    + destruct e; (split; [reflexivity | left; reflexivity]).
  - right. reflexivity.
Qed.

(** ** Captured groups *)

Lemma assoc_cons_is_Some n m g l :
  is_Some (assoc n l) -> is_Some (assoc n ((m, g) :: l)).
Proof. cbn [assoc]. destruct (Nat.eqb m n); [eauto | auto]. Qed.

(** a group once captured stays captured *)
Lemma star_loop_groups step k
  (Hstep : forall s k' e, step s k' = Some e ->
             exists s', k' s' = Some e /\ forall n, has_group n s -> has_group n s') :
  forall fuel s e, star_loop step k fuel s = Some e ->
    exists s', k s' = Some e /\ forall n, has_group n s -> has_group n s'.
Proof.
  induction fuel as [|fuel IH]; intros s e H; simpl in H.
  - exists s. split; [exact H | auto].
  - destruct (step s _) as [e'|] eqn:E.
    + injection H as ->. apply Hstep in E. destruct E as (s1 & H1 & Hg).
      destruct (_ <? _)%nat; [|discriminate].
      apply IH in H1. destruct H1 as (s' & Hk & Hg').
      exists s'. split; [exact Hk | auto].
    + exists s. split; [exact H | auto].
Qed.

Lemma rmatch_groups r : forall s k e,
  rmatch r s k = Some e ->
  exists s', k s' = Some e /\ forall n, has_group n s -> has_group n s'.
Proof.
  induction r as [|p|a IHa b IHb|a IHa b IHb|a IHa|m a IHa|]; intros s k e H; simpl in H.
  - exists s. split; [exact H | auto].
  - destruct s as [pv [|c t] cs]; simpl in H; [discriminate|].
    destruct (p c); [|discriminate].
    eexists. split; [exact H | auto].
  - apply IHa in H. destruct H as (s1 & H & Hg).
    apply IHb in H. destruct H as (s' & H & Hg').
    exists s'. split; [exact H | auto].
  - destruct (rmatch a s k) as [e'|] eqn:E.
    + injection H as ->. apply IHa. exact E.
    + apply IHb. exact H.
  - apply (star_loop_groups _ _ IHa) in H. exact H.
  - apply IHa in H. destruct H as (s1 & H & Hg).
    eexists. split; [exact H|]. intros n Hn. unfold has_group. cbn [caps].
    apply assoc_cons_is_Some. apply Hg. exact Hn.
  - destruct (xorb _ _); [|discriminate]. exists s. split; [exact H | auto].
Qed.

Lemma rmatch_group_captures n a s k e :
  rmatch (Group n a) s k = Some e ->
  exists s', k s' = Some e /\ has_group n s'.
Proof.
  cbn [rmatch]. intros H. apply rmatch_forward in H. destruct H as (s1 & H & _).
  eexists. split; [exact H|]. unfold has_group. cbn [caps assoc].
  rewrite Nat.eqb_refl. eauto.
Qed.

(** a pattern that is one group captures it in every match *)
Lemma search_group_captured n a text m :
  search (Group n a) text = Some m -> exists g, group m n = Some g.
Proof.
  intros H. apply search_from_found in H. destruct H as (p & t & _ & H).
  unfold match_here in H.
  destruct (rmatch (Group n a) (MState p t []) Some) as [e|] eqn:E; [|discriminate].
  injection H as <-. apply rmatch_group_captures in E.
  destruct E as (s' & [= ->] & Hg). exact Hg.
Qed.

(** *** What a run of one class consumes *)

Lemma consumed_append w s s' :
  rest s = w +:+ rest s' -> consumed s s' = w.
Proof.
  unfold consumed. intros ->. generalize (rest s') as r. intros r.
  induction w as [|c w IH].
  - rewrite append_nil_l, Nat.sub_diag. destruct r; reflexivity.
  - rewrite append_cons. cbn [String.length].
    replace (S (String.length (w +:+ r)) - String.length r)%nat
      with (S (String.length (w +:+ r) - String.length r)).
    + cbn [PyStr.take]. now rewrite IH.
    + assert (String.length r <= String.length (w +:+ r))%nat.
      { clear IH. induction w as [|x w IHw]; [rewrite append_nil_l; lia|].
        rewrite append_cons. cbn [String.length]. lia. }
      lia.
Qed.

Lemma all_chars_app p a b :
  all_chars p a = true -> all_chars p b = true -> all_chars p (a +:+ b) = true.
Proof.
  induction a as [|c a IH]; intros Ha Hb; [exact Hb|].
  rewrite append_cons. cbn [all_chars] in *.
  apply andb_true_iff in Ha. destruct Ha as [Hc Ha]. now rewrite Hc, IH.
Qed.

Lemma star_loop_S step k fuel s :
  star_loop step k (S fuel) s =
  match step s (fun s' =>
          if (String.length (rest s') <? String.length (rest s))%nat
          then star_loop step k fuel s' else None) with
  | Some e => Some e
  | None => k s
  end.
Proof. reflexivity. Qed.

Lemma star_loop_chr p k : forall fuel s e,
  star_loop (rmatch (Chr p)) k fuel s = Some e ->
  exists w s', k s' = Some e /\ rest s = w +:+ rest s'
               /\ all_chars p w = true /\ caps s' = caps s.
Proof.
  induction fuel as [|fuel IH]; intros s e H.
  - exists "", s. auto.
  - rewrite star_loop_S in H.
    remember (star_loop (rmatch (Chr p)) k fuel) as loop eqn:Hloop.
    cbn [rmatch] in H. subst loop.
    destruct s as [pv [|c t] cs]; cbn [rest caps] in H.
    + exists "", (MState pv "" cs). auto.
    + destruct (p c) eqn:Ep.
      * assert (Hlt : (String.length t <? String.length (String c t))%nat = true)
          by (apply Nat.ltb_lt; cbn [String.length]; lia).
        rewrite Hlt in H.
        destruct (star_loop (rmatch (Chr p)) k fuel (MState (Some c) t cs)) as [e'|] eqn:E;
          cbv beta iota in H.
        -- injection H as ->. apply IH in E. destruct E as (w & s' & Hk & Hr & Hw & Hc).
           exists (String c w), s'. cbn [rest caps] in *. rewrite append_cons, <- Hr.
           cbn [all_chars]. rewrite Ep, Hw. auto.
        -- exists "", (MState pv (String c t) cs). auto.
      * exists "", (MState pv (String c t) cs). auto.
Qed.

Lemma rmatch_plus_chr p s k e :
  rmatch (Plus (Chr p)) s k = Some e ->
  exists w s', k s' = Some e /\ rest s = w +:+ rest s'
               /\ all_chars p w = true /\ caps s' = caps s.
Proof.
  unfold Plus. rewrite rmatch_seq. cbn [rmatch].
  destruct s as [pv [|c t] cs]; cbn [rest]; [discriminate|].
  destruct (p c) eqn:Ep; [|discriminate]. intros H.
  apply star_loop_chr in H. destruct H as (w & s' & Hk & Hr & Hw & Hc).
  exists (String c w), s'. cbn [rest caps] in *. rewrite append_cons, <- Hr.
  cbn [all_chars]. rewrite Ep, Hw. auto.
Qed.

Lemma rmatch_group n a s k :
  rmatch (Group n a) s k =
  rmatch a s (fun s' => k (MState (prev s') (rest s') ((n, consumed s s') :: caps s'))).
Proof. reflexivity. Qed.

Lemma rmatch_star a s k :
  rmatch (Star a) s k = star_loop (rmatch a) k (String.length (rest s)) s.
Proof. reflexivity. Qed.

Lemma rmatch_opt_chr_caps p s e :
  rmatch (Opt (Chr p)) s Some = Some e -> caps e = caps s.
Proof.
  unfold Opt. cbn [rmatch]. destruct s as [pv [|c t] cs]; cbn [rest caps].
  - now intros [= <-].
  - destruct (p c); now intros [= <-].
Qed.

Lemma remove_comma_digits w :
  all_chars (fun x => isdigit x || is_char "," x) w = true ->
  all_chars isdigit (remove_char "," w) = true.
Proof.
  induction w as [|c w IH]; [reflexivity|]. cbn [all_chars remove_char].
  intros H. apply andb_true_iff in H. destruct H as [Hc Hw].
  unfold is_char in Hc. destruct (Ascii.eqb c ",") eqn:E; [exact (IH Hw)|].
  rewrite orb_false_r in Hc. cbn [all_chars]. now rewrite Hc, IH.
Qed.

(** ** The extractors of the row loop *)

(** the weight pattern captures a run of digits and commas *)
Lemma gross_weight_group text m :
  search gross_weight_re text = Some m ->
  exists g, group m 1 = Some g
            /\ all_chars (fun x => isdigit x || is_char "," x) g = true.
Proof.
  intros H. apply search_from_found in H. destruct H as (p & t & _ & H).
  unfold match_here in H.
  destruct (rmatch gross_weight_re (MState p t []) Some) as [e|] eqn:E; [|discriminate].
  injection H as <-. unfold group. cbn [groups].
  unfold gross_weight_re in E. cbn [seqs] in E.
  rewrite rmatch_seq in E. apply rmatch_lit in E. destruct E as (p1 & t1 & _ & E).
  rewrite rmatch_seq in E. unfold ws in E. rewrite rmatch_star in E.
  apply star_loop_chr in E. destruct E as (w2 & s2 & E & _ & _ & Hc2).
  cbn [caps] in Hc2.
  rewrite rmatch_seq, rmatch_group in E. unfold digit_or in E.
  apply rmatch_plus_chr in E. destruct E as (w & s3 & E & Hr & Hw & Hc3).
  apply rmatch_opt_chr_caps in E. cbn [caps] in E.
  rewrite E, Hc3, Hc2. cbn [assoc Nat.eqb].
  exists (consumed s2 s3). split; [reflexivity|].
  rewrite (consumed_append w s2 s3 Hr). exact Hw.
Qed.

Lemma extract_gross_weight_outcome (text : string) (it : item) :
  (exists g : string,
     extract_gross_weight text it = Ok (true, <["gvwr" := VStr g]> it)
     /\ all_chars isdigit g = true)
  \/ extract_gross_weight text it = Ok (false, it).
Proof.
  unfold extract_gross_weight.
  destruct (search gross_weight_re text) as [m|] eqn:E; [left | right; reflexivity].
  destruct (gross_weight_group text m E) as (g & Hg & Hall).
  unfold group_str. rewrite Hg. cbn [bind].
  exists (remove_char "," g). split; [reflexivity | apply remove_comma_digits; exact Hall].
Qed.

(** X7.  The gross-weight extractor never raises.  When it reports a match
    it has set [gvwr], and only [gvwr], to a text of decimal digits (commas
    removed; empty when the weight was written with commas only); when it
    reports none the item is unchanged. *)
Theorem extract_gross_weight_digits (text : string) (it : item) :
  (exists g : string,
     extract_gross_weight text it = Ok (true, <["gvwr" := VStr g]> it)
     /\ all_chars isdigit g = true)
  \/ extract_gross_weight text it = Ok (false, it).
Proof. exact (extract_gross_weight_outcome text it). Qed.

(** the transmission extractor never raises: both of its patterns are one
    group, which every match captures *)
Lemma extract_transmission_total (text : string) :
  exists o : option string, extract_transmission text = Ok o.
Proof.
  unfold extract_transmission. destruct (negb (nonempty text)); [eauto|].
  destruct (search transmission_re text) as [m|] eqn:E.
  - destruct (search_group_captured 1 _ text m E) as [g Hg].
    unfold group_str. rewrite Hg. cbn [bind]. eauto.
  - destruct (search transmission_fallback_re text) as [m|] eqn:E2; [|eauto].
    destruct (search_group_captured 1 _ text m E2) as [g Hg].
    unfold group_str. rewrite Hg. cbn [bind]. eauto.
Qed.

Lemma extract_engine_raised_iff (text : string) (e : pyexn) :
  extract_engine text = Raised e
  <-> e = AttributeError
      /\ exists m, search engine_re text = Some m /\ group m 1 = None.
Proof.
  unfold extract_engine, group_str. split.
  - destruct (search engine_re text) as [m|] eqn:E.
    + destruct (group m 1) as [g|] eqn:Eg; cbn [bind]; [discriminate|].
      intros [= <-]. split; [reflexivity|]. exists m. auto.
    + destruct (search engine_fallback_re text) as [m|] eqn:E2; [|discriminate].
      destruct (search_group_captured 1 _ text m E2) as [g Hg].
      rewrite Hg. cbn [bind]. discriminate.
  - intros [-> (m & -> & ->)]. reflexivity.
Qed.

(** X8.  The engine extractor raises exactly when the family pattern matches
    without its first group (a Duramax or Ecoboost engine): then it raises
    [AttributeError]; the generic pattern never makes it raise. *)
Theorem extract_engine_raises (text : string) (e : pyexn) :
  extract_engine text = Raised e
  <-> e = AttributeError
      /\ exists m, search engine_re text = Some m /\ group m 1 = None.
Proof. exact (extract_engine_raised_iff text e). Qed.

Lemma extract_engine_transmission_eq (text : string) (it : item) :
  match extract_engine text with
  | Raised e => extract_engine_transmission text it = Raised e
  | Ok engine =>
      exists transmission,
        extract_transmission text = Ok transmission
        /\ extract_engine_transmission text it
           = Ok ((engine, transmission),
                 <["transmission" := keep_first "transmission" transmission
                                       (<["engine" := keep_first "engine" engine it]> it)]>
                   (<["engine" := keep_first "engine" engine it]> it))
  end.
Proof.
  unfold extract_engine_transmission.
  change (match search engine_re text with
          | Some engine_match => _
          | None => _
          end) with (extract_engine text).
  destruct (extract_engine text) as [engine|e]; cbn [bind]; [|reflexivity].
  destruct (extract_transmission_total text) as [transmission Ht].
  exists transmission. split; [exact Ht|]. rewrite Ht. cbn [bind].
  unfold keep_first.
  destruct (truthy (item_get "engine" it));
    destruct (truthy (item_get "transmission" _)); reflexivity.
Qed.

Lemma extract_engine_raises_witness :
  extract_engine "Duramax 6.6L turbo diesel" = Raised AttributeError.
Proof.
  apply (proj2 (extract_engine_raises "Duramax 6.6L turbo diesel" AttributeError)).
  split; [reflexivity|]. eexists. split; reflexivity.
Defined.

(** X9.  The engine/transmission classifier is [extract_engine] followed by
    [extract_transmission]: it raises what [extract_engine] raises, and
    otherwise returns both results and stores each in its field unless the
    field already holds a non-empty value. *)
Theorem extract_engine_transmission_composes (text : string) (it : item) :
  match extract_engine text with
  | Raised e => extract_engine_transmission text it = Raised e
  | Ok engine =>
      exists transmission,
        extract_transmission text = Ok transmission
        /\ extract_engine_transmission text it
           = Ok ((engine, transmission),
                 <["transmission" := keep_first "transmission" transmission
                                       (<["engine" := keep_first "engine" engine it]> it)]>
                   (<["engine" := keep_first "engine" engine it]> it))
  end.
Proof. exact (extract_engine_transmission_eq text it). Qed.

(** ** The row loop *)

Lemma extract_engine_no_family text :
  search engine_re text = None -> exists engine, extract_engine text = Ok engine.
Proof.
  intros H. destruct (extract_engine text) as [engine|e] eqn:E; [eauto|].
  apply extract_engine_raised_iff in E. destruct E as (_ & m & Hm & _). congruence.
Qed.

Lemma classify_row_ok row (it : item) od :
  search engine_re (extract_text_from_td row) = None ->
  exists st', classify_row row (it, od) = Ok st'.
Proof.
  intros Hno. unfold classify_row.
  destruct (nonempty _); [|eauto].
  destruct (find_year_make_model _ it) as [found it1].
  destruct found; [eauto|].
  destruct (contains PASSANGER_KEY _); [eauto|].
  destruct (contains MILES_KEY _); [destruct (truthy _); eauto|].
  pose proof (extract_engine_transmission_eq (extract_text_from_td row) it) as Hc.
  destruct (extract_engine_no_family _ Hno) as [engine He]. rewrite He in Hc.
  destruct Hc as (transmission & _ & ->). cbn [bind fst snd].
  destruct (truthy_str engine || truthy_str transmission); [eauto|].
  match goal with
  | |- context [extract_gross_weight ?t ?i] =>
      destruct (extract_gross_weight_outcome t i) as [(g & -> & _) | ->]
  end; cbn [bind]; [eauto|].
  destruct (contains WHEELCHAIR_KEY _); [eauto|].
  destruct (contains LUGGAGE_KEY _); eauto.
Qed.

Lemma classify_rows_ok rows :
  Forall (fun row => search engine_re (extract_text_from_td row) = None) rows ->
  forall st, exists st', classify_rows rows st = Ok st'.
Proof.
  induction 1 as [|row rows Hrow _ IH]; intros st; cbn [classify_rows]; [eauto|].
  destruct st as [it od]. destruct (classify_row_ok row it od Hrow) as [st1 ->].
  cbn [bind]. apply IH.
Qed.

(** X10.  When no row of the detail table matches the engine family
    pattern, [parse_bus_details] raises nothing and yields exactly one
    item, with the status line as its only possible log entry. *)
Theorem parse_bus_details_emits (rsm : Z -> string) (r : response) :
  Forall (fun row => search engine_re (extract_text_from_td row) = None) (table_rows r) ->
  exists it : item, parse_bus_details rsm r = Ok ([it], request_failed rsm r).
Proof.
  intros Hrows. unfold parse_bus_details.
  match goal with
  | |- context [classify_rows ?rows ?st] =>
      destruct (classify_rows_ok rows Hrows st) as [[it od] ->]
  end.
  cbn [bind]. eauto.
Qed.

Lemma parse_bus_details_emits_witness :
  exists it : item, parse_bus_details status_text failed_page
                    = Ok ([it], request_failed status_text failed_page).
Proof.
  apply (parse_bus_details_emits status_text failed_page).
  repeat constructor.
Defined.

Lemma classify_row_raises row st e :
  classify_row row st = Raised e ->
  e = AttributeError
  /\ exists m, search engine_re (extract_text_from_td row) = Some m /\ group m 1 = None.
Proof.
  destruct st as [it od]. unfold classify_row.
  destruct (nonempty _); [|discriminate].
  destruct (find_year_make_model _ it) as [found it1].
  destruct found; [discriminate|].
  destruct (contains PASSANGER_KEY _); [discriminate|].
  destruct (contains MILES_KEY _); [destruct (truthy _); discriminate|].
  pose proof (extract_engine_transmission_eq (extract_text_from_td row) it) as Hc.
  destruct (extract_engine (extract_text_from_td row)) as [engine|e'] eqn:He.
  - destruct Hc as (transmission & _ & ->). cbn [bind fst snd].
    destruct (truthy_str engine || truthy_str transmission); [discriminate|].
    match goal with
    | |- context [extract_gross_weight ?t ?i] =>
        destruct (extract_gross_weight_outcome t i) as [(g & -> & _) | ->]
    end; cbn [bind]; [discriminate|].
    destruct (contains WHEELCHAIR_KEY _); [discriminate|].
    destruct (contains LUGGAGE_KEY _); discriminate.
  - rewrite Hc. cbn [bind]. intros [= <-]. apply extract_engine_raised_iff. exact He.
Qed.

Lemma classify_rows_raises rows : forall st e,
  classify_rows rows st = Raised e ->
  e = AttributeError
  /\ exists row m, In row rows
       /\ search engine_re (extract_text_from_td row) = Some m /\ group m 1 = None.
Proof.
  induction rows as [|row rows IH]; intros st e H; cbn [classify_rows] in H;
    [discriminate|].
  destruct (classify_row row st) as [st1|e1] eqn:E1; cbn [bind] in H.
  - destruct (IH _ _ H) as (-> & row' & m & Hin & Hm).
    split; [reflexivity|]. exists row', m. split; [right; exact Hin | exact Hm].
  - injection H as <-. destruct (classify_row_raises _ _ _ E1) as (-> & m & Hm).
    split; [reflexivity|]. exists row, m. split; [left; reflexivity | exact Hm].
Qed.

(** X11.  The only exception of [parse_bus_details] is [AttributeError],
    and it comes from a row of the table that matches the engine family
    pattern without its first group; the item is then lost whole. *)
Theorem parse_bus_details_raises (rsm : Z -> string) (r : response) (e : pyexn) :
  parse_bus_details rsm r = Raised e ->
  e = AttributeError
  /\ exists row m, In row (table_rows r)
       /\ search engine_re (extract_text_from_td row) = Some m /\ group m 1 = None.
Proof.
  unfold parse_bus_details. intros H.
  destruct (classify_rows _ _) as [[it od]|e'] eqn:E; cbn [bind] in H; [discriminate|].
  injection H as <-. exact (classify_rows_raises _ _ _ E).
Qed.

Lemma parse_bus_details_raises_witness :
  AttributeError = AttributeError
  /\ exists row m, In row (table_rows duramax_page)
       /\ search engine_re (extract_text_from_td row) = Some m /\ group m 1 = None.
Proof.
  apply (parse_bus_details_raises status_text duramax_page AttributeError).
  reflexivity.
Defined.

Lemma insert_keep_first_lookup key new (it : item) k :
  (k = key -> truthy (item_get key it) = true) ->
  <[key := keep_first key new it]> it !! k = it !! k.
Proof.
  intros H. destruct (decide (key = k)) as [<-|Hne].
  - rewrite lookup_insert_eq. unfold keep_first. rewrite (H eq_refl).
    specialize (H eq_refl). unfold item_get in *.
    destruct (it !! key); [reflexivity | discriminate].
  - now rewrite lookup_insert_ne.
Qed.

Lemma find_year_make_model_writes text (it : item) k :
  ~ In k overwritten_keys ->
  snd (find_year_make_model text it) !! k = it !! k.
Proof.
  intros Hk. unfold find_year_make_model.
  destruct (truthy_str _); [|reflexivity].
  destruct (map strip (split "," text)) as [|p0 [|p1 ps]]; try reflexivity.
  destruct (split_ws p0); [reflexivity|].
  cbn [snd]. rewrite !lookup_insert_ne by (intros <-; apply Hk; simpl; tauto).
  reflexivity.
Qed.

(** a row leaves alone every field outside [overwritten_keys], once the
    first-wins fields among them hold a non-empty value *)
Lemma classify_row_first_wins row (it it' : item) od od' k :
  classify_row row (it, od) = Ok (it', od') ->
  ~ In k overwritten_keys ->
  (In k first_wins_keys -> truthy (item_get k it) = true) ->
  it' !! k = it !! k.
Proof.
  unfold classify_row. intros H Hk Hm.
  assert (Hne : forall key, In key overwritten_keys -> key <> k)
    by (intros key Hin <-; auto).
  destruct (nonempty _); [|now injection H as <- _].
  pose proof (find_year_make_model_writes (extract_text_from_td row) it k Hk) as Hy.
  destruct (find_year_make_model _ it) as [found it1]. cbn [snd] in Hy.
  destruct found; [now injection H as <- _|].
  destruct (contains PASSANGER_KEY _).
  { injection H as <- _. rewrite lookup_insert_ne; [reflexivity|].
    apply Hne. simpl. tauto. }
  destruct (contains MILES_KEY _).
  { destruct (truthy (item_get "mileage" it)) eqn:Et; injection H as <- _.
    - reflexivity.
    - rewrite lookup_insert_ne; [reflexivity|].
      intros <-. rewrite Hm in Et; [discriminate | simpl; tauto]. }
  pose proof (extract_engine_transmission_eq (extract_text_from_td row) it) as Hc.
  destruct (extract_engine (extract_text_from_td row)) as [engine|e'];
    [|rewrite Hc in H; discriminate].
  destruct Hc as (transmission & _ & Hc). rewrite Hc in H. cbn [bind fst snd] in H.
  match type of H with
  | context [extract_gross_weight _ ?i] =>
      assert (H2 : i !! k = it !! k)
  end.
  { rewrite insert_keep_first_lookup.
    - apply insert_keep_first_lookup. intros ->. apply Hm. simpl. tauto.
    - intros ->. unfold item_get. rewrite lookup_insert_ne by discriminate.
      apply Hm. simpl. tauto. }
  destruct (truthy_str engine || truthy_str transmission).
  { injection H as <- _. exact H2. }
  match type of H with
  | context [extract_gross_weight ?t ?i] =>
      destruct (extract_gross_weight_outcome t i) as [(g & Hg & _) | Hg];
        rewrite Hg in H
  end; cbn [bind] in H.
  { injection H as <- _. rewrite lookup_insert_ne; [exact H2|].
    apply Hne. simpl. tauto. }
  destruct (contains WHEELCHAIR_KEY _).
  { injection H as <- _. rewrite lookup_insert_ne; [exact H2|].
    apply Hne. simpl. tauto. }
  destruct (contains LUGGAGE_KEY _).
  { injection H as <- _. unfold LUGGAGE_KEY. rewrite lookup_insert_ne; [exact H2|].
    apply Hne. simpl. tauto. }
  injection H as <- _. exact H2.
Qed.

Lemma classify_rows_first_wins rows : forall (it it' : item) od od' k,
  classify_rows rows (it, od) = Ok (it', od') ->
  ~ In k overwritten_keys ->
  (In k first_wins_keys -> truthy (item_get k it) = true) ->
  it' !! k = it !! k.
Proof.
  induction rows as [|row rows IH]; intros it it' od od' k H Hk Hm.
  - cbn [classify_rows] in H. now injection H as <- _.
  - cbn [classify_rows] in H. destruct (classify_row row (it, od)) as [[it1 od1]|] eqn:E1;
      [|discriminate].
    cbn [bind] in H.
    pose proof (classify_row_first_wins _ _ _ _ _ k E1 Hk Hm) as H1.
    rewrite <- H1. apply (IH _ _ _ _ _ H Hk).
    intros Hin. rewrite (item_get_lookup _ _ _ H1). auto.
Qed.

(** X12.  First match sticks: once the engine field, or the transmission
    field, holds a non-empty value, no later row of the table changes it. *)
Theorem engine_transmission_first_wins (rows : list td_sel) (it it' : item)
    (od od' : list string) (key : string) :
  key = "engine" \/ key = "transmission" ->
  truthy (item_get key it) = true ->
  classify_rows rows (it, od) = Ok (it', od') ->
  it' !! key = it !! key.
Proof.
  intros Hkey Ht H. apply (classify_rows_first_wins rows it it' od od' key H).
  - unfold overwritten_keys. simpl. destruct Hkey as [-> | ->]; intuition discriminate.
  - intros _. exact Ht.
Qed.

Lemma engine_transmission_first_wins_witness :
  (<["transmission" := VStr "5 speed"]>
     (<["engine" := VStr "DT466 diesel"]> item_with_engine) : item) !! "engine"
  = item_with_engine !! "engine".
Proof.
  apply (engine_transmission_first_wins [plain_row "7.3 liter diesel, 5 speed"]
           item_with_engine _ [] [] "engine").
  - left. reflexivity.
  - reflexivity.
  - reflexivity.
Defined.

(** a row adds nothing to [other_details], or its own text at the end *)
Lemma classify_row_other_details row (it it' : item) od od' :
  classify_row row (it, od) = Ok (it', od') ->
  od' = od
  \/ (od' = (od ++ [extract_text_from_td row])%list
      /\ nonempty (extract_text_from_td row) = true).
Proof.
  unfold classify_row. intros H.
  destruct (nonempty _) eqn:Ene; [|injection H as _ <-; auto].
  destruct (find_year_make_model _ it) as [found it1].
  destruct found; [injection H as _ <-; auto|].
  destruct (contains PASSANGER_KEY _); [injection H as _ <-; auto|].
  destruct (contains MILES_KEY _);
    [destruct (truthy _); injection H as _ <-; auto|].
  destruct (extract_engine_transmission _ it) as [[et it2]|]; [|discriminate].
  cbn [bind] in H.
  destruct (truthy_str (fst et) || truthy_str (snd et)); [injection H as _ <-; auto|].
  destruct (extract_gross_weight _ it2) as [[gw it3]|]; [|discriminate].
  cbn [bind] in H.
  destruct gw; [injection H as _ <-; auto|].
  destruct (contains WHEELCHAIR_KEY _); [injection H as _ <-; auto|].
  destruct (contains LUGGAGE_KEY _); [injection H as _ <-; auto|].
  injection H as _ <-. right. auto.
Qed.

Lemma classify_rows_other_details rows : forall (it it' : item) od od',
  classify_rows rows (it, od) = Ok (it', od') ->
  exists more,
    od' = (od ++ more)%list
    /\ sublist more (map extract_text_from_td rows)
    /\ Forall (fun t => nonempty t = true) more.
Proof.
  induction rows as [|row rows IH]; intros it it' od od' H; cbn [classify_rows] in H.
  - injection H as _ <-. exists []. rewrite app_nil_r. repeat constructor.
  - destruct (classify_row row (it, od)) as [[it1 od1]|] eqn:E1; [|discriminate].
    cbn [bind] in H. destruct (IH _ _ _ _ H) as (more & -> & Hsub & Hne).
    destruct (classify_row_other_details _ _ _ _ _ E1) as [-> | [-> Ht]].
    + exists more. split; [reflexivity|]. split; [|exact Hne].
      cbn [map]. apply sublist_cons. exact Hsub.
    + exists (extract_text_from_td row :: more). rewrite <- app_assoc.
      split; [reflexivity|]. split; [|constructor; assumption].
      cbn [map]. apply sublist_skip. exact Hsub.
Qed.

(** X13.  The features text of the item yielded is the ", "-join of texts of
    rows of the detail table, each non-empty, in table order and each row at
    most once; it is null when no row was left over, never the empty
    join. *)
Theorem features_from_rows (rsm : Z -> string) (r : response) (it : item)
    (log : list log_entry) :
  parse_bus_details rsm r = Ok ([it], log) ->
  exists more : list string,
    sublist more (map extract_text_from_td (table_rows r))
    /\ Forall (fun t => nonempty t = true) more
    /\ features_of it = match more with
                        | [] => None
                        | _ => Some (join ", " more)
                        end.
Proof.
  unfold parse_bus_details. intros H.
  destruct (classify_rows _ _) as [[it1 od]|] eqn:E; [|discriminate].
  cbn [bind] in H. injection H as <- _.
  destruct (classify_rows_other_details _ _ _ _ _ E) as (more & -> & Hsub & Hne).
  exists more. split; [exact Hsub|]. split; [exact Hne|].
  unfold features_of. rewrite lookup_insert_eq. reflexivity.
Qed.

Lemma features_from_rows_witness :
  exists more : list string,
    sublist more (map extract_text_from_td (table_rows failed_page))
    /\ Forall (fun t => nonempty t = true) more
    /\ features_of
         (<["bus_overview" := VOverview (OverviewItem (Some "rear A/C"))]>
          (<["transmission" := VNone]> (<["engine" := VNone]>
          (<["mileage" := VStr "45,000 "]>
          (<["airconditioning" := VStr "REAR"]>
          (<["price" := VStr "9,999"]>
          (<["description" := VStr "Clean bus."]>
          (<["images" := VImages []]> (meta_item failed_page)))))))))
       = match more with
         | [] => None
         | _ => Some (join ", " more)
         end.
Proof.
  apply (features_from_rows status_text failed_page _
           [LogError "Request failed with status: 404 - Not Found"]).
  reflexivity.
Defined.

Lemma extend_images_keeps more (it : item) k :
  k <> "images" -> extend_images more it !! k = it !! k.
Proof.
  intros Hk. unfold extend_images.
  destruct (it !! "images") as [[| | | |l|]|]; try reflexivity.
  now rewrite lookup_insert_ne.
Qed.

(** X14.  The detail callback changes no field of the listing stage: every
    field outside the ones it extracts (so title, sold, source, source_url)
    is in the item yielded as it was in the item carried by the request. *)
Theorem parse_bus_details_keeps_listing_fields (rsm : Z -> string) (r : response)
    (it : item) (log : list log_entry) (k : string) :
  parse_bus_details rsm r = Ok ([it], log) ->
  ~ In k detail_keys ->
  it !! k = meta_item r !! k.
Proof.
  unfold parse_bus_details. intros H Hk.
  assert (Hne : forall key, In key detail_keys -> key <> k)
    by (intros key Hin <-; auto).
  destruct (classify_rows _ _) as [[it1 od]|] eqn:E; [|discriminate].
  cbn [bind] in H. injection H as <- _.
  rewrite lookup_insert_ne by (apply Hne; unfold detail_keys; simpl; tauto).
  rewrite (classify_rows_keeps _ _ _ _ _ k E).
  - rewrite !lookup_insert_ne by (apply Hne; unfold detail_keys; simpl; tauto).
    rewrite !extend_images_keeps
      by (intros ->; apply Hk; unfold detail_keys; simpl; tauto).
    apply lookup_insert_ne. apply Hne. unfold detail_keys. simpl. tauto.
  - intros Hin. apply Hk. unfold detail_keys. apply in_or_app. right. exact Hin.
  - intros ->. exfalso. apply Hk. unfold detail_keys. simpl. tauto.
Qed.

Lemma parse_bus_details_keeps_listing_fields_witness :
  (scenario_record (meta_item scenario_detail_page) [] (VStr "") (VStr "12,345.00"))
    !! "source_url"
  = meta_item scenario_detail_page !! "source_url".
Proof.
  apply (parse_bus_details_keeps_listing_fields status_text scenario_detail_page
           _ [] "source_url").
  - reflexivity.
  - unfold detail_keys, classifier_keys. simpl. intuition discriminate.
Defined.

(** ** Mileage *)

Lemma split_go_hd (sep : string) (s cur : string) :
  hd "" (split_go sep 0 cur s) = cur +:+ before_first sep s.
Proof.
  revert cur. induction s as [|c t IH]; intros cur.
  - simpl. now rewrite append_empty_r.
  - rewrite split_go_cons.
    change (before_first sep (String c t))
      with (if startswith sep (String c t) then "" else String c (before_first sep t)).
    destruct (startswith sep (String c t)).
    + cbn [hd]. now rewrite append_empty_r.
    + rewrite IH, append_assoc. reflexivity.
Qed.

Lemma startswith_split p : forall s,
  startswith p s = true -> exists rest, s = p +:+ rest.
Proof.
  induction p as [|a p IH]; intros s H.
  - exists s. reflexivity.
  - destruct s as [|b s]; [discriminate|]. cbn [startswith] in H.
    destruct (Ascii.eqb a b) eqn:E; [|discriminate].
    apply Ascii.eqb_eq in E. subst b. destruct (IH _ H) as [rest ->].
    exists rest. reflexivity.
Qed.

Lemma contains_cons needle c t :
  contains needle (String c t) = startswith needle (String c t) || contains needle t.
Proof. reflexivity. Qed.

Lemma before_first_split sep : forall s,
  contains sep s = true -> exists rest, s = before_first sep s +:+ sep +:+ rest.
Proof.
  induction s as [|c t IH]; intros H.
  - cbn [contains] in H. rewrite orb_false_r in H.
    destruct (startswith_split _ _ H) as [rest Hr]. exists rest.
    cbn [before_first]. exact Hr.
  - rewrite contains_cons in H.
    change (before_first sep (String c t))
      with (if startswith sep (String c t) then "" else String c (before_first sep t)).
    destruct (startswith sep (String c t)) eqn:E.
    + destruct (startswith_split _ _ E) as [rest Hr]. exists rest. exact Hr.
    + cbn [orb] in H. destruct (IH H) as [rest Hr]. exists rest.
      rewrite append_cons. now rewrite <- Hr.
Qed.

Lemma startswith_lower p : forall s,
  startswith p s = true -> startswith (lower p) (lower s) = true.
Proof.
  induction p as [|a p IH]; intros s H; [reflexivity|].
  destruct s as [|b s]; [discriminate|]. cbn [startswith lower] in *.
  destruct (Ascii.eqb a b) eqn:E; [|discriminate].
  apply Ascii.eqb_eq in E. subst b. rewrite Ascii.eqb_refl. auto.
Qed.

Lemma contains_lower p : forall s,
  contains p s = true -> contains (lower p) (lower s) = true.
Proof.
  induction s as [|c t IH]; intros H.
  - cbn [contains] in H. rewrite orb_false_r in H.
    cbn [lower contains]. rewrite orb_false_r.
    apply (startswith_lower p "" H).
  - rewrite contains_cons in H. cbn [lower]. rewrite contains_cons.
    apply orb_true_iff in H. apply orb_true_iff. destruct H as [H|H].
    + left. apply (startswith_lower p (String c t) H).
    + right. auto.
Qed.

(** X15.  A row that reaches the mileage classifier while the mileage field
    is empty, and whose text holds the keyword in lower case, stores the
    text before the first occurrence of the keyword, and nothing else
    changes. *)
Theorem mileage_before_first_keyword (row : td_sel) (it : item) (od : list string) :
  fst (find_year_make_model (extract_text_from_td row) it) = false ->
  contains PASSANGER_KEY (lower (extract_text_from_td row)) = false ->
  truthy (item_get "mileage" it) = false ->
  contains MILES_KEY (extract_text_from_td row) = true ->
  classify_row row (it, od)
    = Ok (<["mileage" := VStr (before_first MILES_KEY (extract_text_from_td row))]> it, od)
  /\ exists rest,
       extract_text_from_td row
       = before_first MILES_KEY (extract_text_from_td row) +:+ MILES_KEY +:+ rest.
Proof.
  intros Hy Hp Hm Hc. split; [|apply before_first_split; exact Hc].
  unfold classify_row.
  assert (Hne : nonempty (extract_text_from_td row) = true).
  { destruct (extract_text_from_td row); [discriminate Hc | reflexivity]. }
  rewrite Hne.
  destruct (find_year_make_model _ it) as [found it1]. cbn [fst] in Hy. subst found.
  rewrite Hp.
  pose proof (contains_lower MILES_KEY _ Hc) as Hl.
  change (lower MILES_KEY) with MILES_KEY in Hl. rewrite Hl, Hm.
  unfold split. rewrite split_go_hd, append_nil_l. reflexivity.
Qed.

Lemma mileage_before_first_keyword_witness :
  classify_row (plain_row "12,000 miles, 300 miles since service") (∅, [])
    = Ok (<["mileage" := VStr "12,000 "]> ∅, [])
  /\ exists rest,
       "12,000 miles, 300 miles since service" = "12,000 " +:+ "miles" +:+ rest.
Proof.
  apply (mileage_before_first_keyword
           (plain_row "12,000 miles, 300 miles since service") ∅ []); reflexivity.
Defined.

(** ** Images and the listing page *)

Lemma Forall_imap {A B : Type} (P : B -> Prop) (l : list A) :
  forall f : nat -> A -> B, (forall i x, In x l -> P (f i x)) -> Forall P (imap f l).
Proof.
  induction l as [|x l IH]; intros f Hf; cbn [imap]; constructor.
  - apply Hf. left. reflexivity.
  - apply IH. intros i y Hy. apply Hf. right. exact Hy.
Qed.

Lemma nonempty_app_r a b : nonempty b = true -> nonempty (a +:+ b) = true.
Proof.
  destruct a as [|c a]; [rewrite append_nil_l; auto|]. rewrite append_cons. reflexivity.
Qed.

(** X16.  There is one image item per selected element, and the item at a
    position is named after the element at that position: its alt text when
    that is present and not empty, else the group name, an underscore and
    the position counted from 0.  So every name is non-empty; and in the two
    groups the detail callback asks for no index is 0. *)
Theorem extract_images_named (r : response) (selector image_type : string) :
  length (extract_images r selector image_type) = length (css_img r selector)
  /\ (forall k img,
        css_img r selector !! k = Some img ->
        exists im,
          extract_images r selector image_type !! k = Some im
          /\ name im = match img_alt img with
                       | Some alt => if nonempty alt then alt
                                     else image_type +:+ "_" +:+ of_Z (Z.of_nat k)
                       | None => image_type +:+ "_" +:+ of_Z (Z.of_nat k)
                       end)
  /\ Forall (fun im => nonempty (name im) = true)
            (extract_images r selector image_type)
  /\ Forall (fun im => image_index im <> 0%Z) (extract_images r selector "main_images")
  /\ Forall (fun im => image_index im <> 0%Z) (extract_images r selector "thumbnails").
Proof.
  split; [unfold extract_images; apply length_imap|]. split.
  { intros k img H. exists (image_at r image_type k img).
    split; [apply extract_images_at; exact H | reflexivity]. }
  unfold extract_images. split; [|split].
  - apply Forall_imap. intros i img _. cbn [name].
    destruct (img_alt img) as [alt|]; cbn [truthy_str negb].
    + destruct (nonempty alt) eqn:E; cbn [negb default]; [exact E|].
      apply nonempty_app_r. reflexivity.
    + apply nonempty_app_r. reflexivity.
  - apply Forall_imap. intros i img _. cbn [image_index].
    change (String.eqb "main_images" "thumbnails") with false.
    change (String.eqb "main_images" "main_images") with true. cbv beta iota. lia.
  - apply Forall_imap. intros i img _. cbn [image_index].
    change (String.eqb "thumbnails" "thumbnails") with true. cbv beta iota. lia.
Qed.

Lemma extract_images_named_witness :
  (exists im,
     extract_images named_page main_floor_images_sel "main_images" !! 0%nat = Some im
     /\ name im = "Front view")
  /\ (exists im,
        extract_images named_page main_floor_images_sel "main_images" !! 1%nat = Some im
        /\ name im = "main_images_1").
Proof.
  destruct (extract_images_named named_page main_floor_images_sel "main_images")
    as (_ & Hname & _).
  split.
  - apply (Hname 0%nat (img_alt_of main_floor_images_sel "Front view" "/m1.jpg")).
    reflexivity.
  - apply (Hname 1%nat (img_of main_floor_images_sel "/m2.jpg")). reflexivity.
Defined.

Lemma omap_length_le {A B : Type} (f : A -> option B) (l : list A) :
  (length (omap f l) <= length l)%nat.
Proof.
  induction l as [|x l IH]; [reflexivity|]. cbn [omap list_omap length].
  destruct (f x); cbn [length]; lia.
Qed.

Lemma parse_table_request r table req :
  parse_table r table = Some req ->
  truthy_str (href table) = true
  /\ req_item req !! "source_url" = Some (VStr (req_url req))
  /\ req_item req !! "source" = Some (VStr "absolutebus")
  /\ req_item req !! "sold" = Some (VInt (is_bus_sold table))
  /\ (is_bus_sold table = 0 \/ is_bus_sold table = 1)%Z.
Proof.
  unfold parse_table. destruct (truthy_str (href table)); [|discriminate].
  intros [= <-]. cbn [req_item req_url]. split; [reflexivity|].
  split; [apply lookup_insert_eq|].
  split; [rewrite !lookup_insert_ne by discriminate; apply lookup_insert_eq|].
  split; [rewrite lookup_insert_ne by discriminate; apply lookup_insert_eq|].
  unfold is_bus_sold. destruct (contains _ _); auto.
Qed.

(** X17.  The listing callback yields a request only for a table that has a
    link, at most one per table; the item it carries has the request's URL
    as [source_url], "absolutebus" as [source] and 0 or 1 as [sold]. *)
Theorem parse_requests (rsm : Z -> string) (r : response) :
  (length (fst (parse rsm r)) <= length (listing_tables r))%nat
  /\ Forall (fun req =>
               req_item req !! "source_url" = Some (VStr (req_url req))
               /\ req_item req !! "source" = Some (VStr "absolutebus")
               /\ (req_item req !! "sold" = Some (VInt 0)
                   \/ req_item req !! "sold" = Some (VInt 1))
               /\ exists table, In table (listing_tables r)
                                /\ truthy_str (href table) = true
                                /\ parse_table r table = Some req)
            (fst (parse rsm r)).
Proof.
  unfold parse. cbn [fst]. split; [apply omap_length_le|].
  apply Forall_forall. intros req Hreq.
  apply list_elem_of_omap in Hreq.
  destruct Hreq as (table & Hin & Hp). rewrite list_elem_of_In in Hin.
  destruct (parse_table_request _ _ _ Hp) as (Hh & Hu & Hs & Hsold & H01).
  split; [exact Hu|]. split; [exact Hs|]. split.
  - rewrite Hsold. destruct H01 as [-> | ->]; auto.
  - exists table. auto.
Qed.

(** ** Air conditioning *)

Lemma first_ac_row_split (rows : list td_sel) :
  Forall (fun r => ac_row r = false) rows
  \/ exists pre row post,
       rows = (pre ++ row :: post)%list
       /\ Forall (fun r => ac_row r = false) pre /\ ac_row row = true.
Proof.
  induction rows as [|row rows IH]; [left; constructor|].
  destruct (ac_row row) eqn:E.
  - right. exists [], row, rows. split; [reflexivity|]. split; [constructor | exact E].
  - destruct IH as [Hall | (pre & row' & post & -> & Hpre & Hrow)].
    + left. constructor; assumption.
    + right. exists (row :: pre), row', post. split; [reflexivity|].
      split; [constructor; assumption | exact Hrow].
Qed.

(** X18.  The air-conditioning field is null or one of BOTH, REAR, DASH,
    OTHER; it is null exactly when no row of the table matches the
    air-conditioning pattern. *)
Theorem air_conditioning_values (rows : list td_sel) :
  (extract_air_conditioning rows = None
   /\ Forall (fun r => ac_row r = false) rows)
  \/ (exists c, extract_air_conditioning rows = Some c
                /\ In c ["BOTH"; "REAR"; "DASH"; "OTHER"]
                /\ Exists (fun r => ac_row r = true) rows).
Proof.
  destruct (first_ac_row_split rows) as [Hall | (pre & row & post & -> & Hpre & Hrow)].
  - left. split; [|exact Hall]. unfold extract_air_conditioning.
    pose proof (ac_scan_none rows None Hall) as Hn.
    destruct (ac_scan rows None) as [a t]. cbn [fst] in Hn. subst a. reflexivity.
  - right. exists (ac_category (extract_text_from_td row)). split; [|split].
    + unfold extract_air_conditioning.
      rewrite (ac_scan_first pre post row None Hpre Hrow).
      cbn [truthy_str]. rewrite (is_match_nonempty _ Hrow). reflexivity.
    + unfold ac_category.
      repeat match goal with
             | |- context [if ?b then _ else _] => destruct b
             end; simpl; tauto.
    + apply Exists_exists. exists row. split; [|exact Hrow].
      rewrite list_elem_of_In. apply in_or_app. right. left. reflexivity.
Qed.

(** ** Price and make *)

Lemma position_contains w p t p' t' :
  position_of p t p' t' -> startswith w t' = true -> contains w t = true.
Proof.
  induction 1 as [p t | p c t p' t' _ IH]; intros Hw.
  - destruct t; cbn [contains]; now rewrite Hw.
  - rewrite contains_cons. rewrite (IH Hw). apply orb_true_r.
Qed.

Lemma price_match_starts_with_dollar p t m :
  match_here price_re p t = Some m -> startswith "$" t = true.
Proof.
  unfold match_here, price_re. rewrite rmatch_seq, rmatch_chr. cbn [rest].
  destruct t as [|c t]; [discriminate|].
  destruct (Ascii.eqb c "$") eqn:E; [|discriminate].
  apply Ascii.eqb_eq in E. subst c. reflexivity.
Qed.

(** X19.  A heading text without a dollar sign gives no price, also when it
    says "starting at". *)
Theorem extract_price_needs_dollar (text : string) :
  contains "$" text = false -> extract_price (Some text) = None.
Proof.
  intros Hno. rewrite extract_price_one_pattern. unfold extract_price_first_pattern.
  destruct (negb (truthy_str (Some text))); [reflexivity|].
  change (default "" (Some text)) with text.
  destruct (search price_re text) as [m|] eqn:E; [exfalso | reflexivity].
  apply search_from_found in E. destruct E as (p' & t' & Hpos & Hm).
  apply price_match_starts_with_dollar in Hm.
  rewrite (position_contains "$" _ _ _ _ Hpos Hm) in Hno. discriminate.
Qed.

Lemma extract_price_needs_dollar_witness :
  extract_price (Some "starting at 9,999 dollars") = None.
Proof.
  apply (extract_price_needs_dollar "starting at 9,999 dollars"). reflexivity.
Defined.

Lemma isspace_space c : isspace c = false -> not_space c = true.
Proof.
  unfold not_space. intros H. destruct (Ascii.eqb c " ") eqn:E; [|reflexivity].
  apply Ascii.eqb_eq in E. subst c. discriminate H.
Qed.

Lemma all_chars_snoc p s c :
  all_chars p s = true -> p c = true -> all_chars p (s +:+ String c "") = true.
Proof.
  intros Hs Hc. apply all_chars_app; [exact Hs|]. cbn [all_chars]. now rewrite Hc.
Qed.

(** the words of [s.split()] hold no space *)
Lemma split_ws_go_words s : forall cur,
  all_chars not_space cur = true ->
  Forall (fun w => all_chars not_space w = true) (split_ws_go cur s).
Proof.
  induction s as [|c t IH]; intros cur Hcur; cbn [split_ws_go].
  - destruct (nonempty cur); repeat constructor. exact Hcur.
  - destruct (isspace c) eqn:E.
    + destruct (nonempty cur); [constructor; [exact Hcur|]|]; apply IH; reflexivity.
    + apply IH. apply all_chars_snoc; [exact Hcur | apply isspace_space; exact E].
Qed.

Lemma before_char_word w : forall rest,
  all_chars not_space w = true ->
  before_char " " (w +:+ String " " rest) = w.
Proof.
  induction w as [|c w IH]; intros rest H; [reflexivity|].
  cbn [all_chars] in H. apply andb_true_iff in H. destruct H as [Hc Hw].
  rewrite append_cons. cbn [before_char]. unfold not_space in Hc.
  apply negb_true_iff in Hc. rewrite Hc, IH by exact Hw. reflexivity.
Qed.

Lemma before_char_whole w :
  all_chars not_space w = true -> before_char " " w = w.
Proof.
  induction w as [|c w IH]; intros H; [reflexivity|].
  cbn [all_chars] in H. apply andb_true_iff in H. destruct H as [Hc Hw].
  cbn [before_char]. unfold not_space in Hc.
  apply negb_true_iff in Hc. rewrite Hc, IH by exact Hw. reflexivity.
Qed.

(** X20.  Of the make the spider assembles for a year row (the words after
    the year, joined by single spaces) validation keeps the first word only:
    "Blue Bird" is stored as "Blue". *)
Theorem make_of_year_row_first_word (p0 year w : string) (ws : list string) :
  split_ws p0 = year :: w :: ws ->
  validate_make (Some (join " " (w :: ws))) = Ok (Some w).
Proof.
  intros Hs.
  pose proof (split_ws_go_words p0 "" eq_refl) as Hall.
  fold (split_ws p0) in Hall. rewrite Hs in Hall.
  inversion Hall as [|? ? _ Hall']; subst. inversion Hall' as [|? ? Hw _]; subst.
  destruct (validate_make_before_space (join " " (w :: ws))) as (w' & Hv & _).
  rewrite Hv. f_equal. f_equal.
  unfold validate_make, split in Hv.
  pose proof (split_go_char_hd " " (join " " (w :: ws)) "") as Hhd.
  destruct (split_go " " 0 "" (join " " (w :: ws))) as [|x xs]; [discriminate|].
  injection Hv as <-. cbn [hd] in Hhd. rewrite Hhd, append_nil_l.
  destruct ws as [|w2 ws]; cbn [join].
  - apply before_char_whole. exact Hw.
  - apply before_char_word. exact Hw.
Qed.

Lemma make_of_year_row_first_word_witness :
  validate_make (Some (join " " ["Blue"; "Bird"])) = Ok (Some "Blue").
Proof.
  apply (make_of_year_row_first_word "1998 Blue Bird" "1998" "Blue" ["Bird"]).
  reflexivity.
Defined.

(** ** The status of the response *)

(** [int()] skips less than [str.strip()] strips: a raw year with U+001C
    before its digits is no integer literal, and more than 4300 digits are
    none either *)
Lemma to_int_not_strip :
  to_int (String (ascii_of_N 28) "1998") = None
  /\ strip (String (ascii_of_N 28) "1998") = "1998"
  /\ invalid_year (String (ascii_of_N 28) "1998")
  /\ validate_year (Some (String (ascii_of_N 28) "1998")) = Raised ValueError.
Proof.
  split; [reflexivity|]. split; [reflexivity|]. split; [left; reflexivity | reflexivity].
Qed.

Lemma extend_images_insert more l (it : item) :
  extend_images more (<["images" := VImages l]> it)
  = <["images" := VImages (l ++ more)%list]> it.
Proof.
  unfold extend_images. rewrite lookup_insert_eq. apply insert_insert_eq.
Qed.

(** [parse_bus_details] is the row loop on the fields read from the page,
    then the overview, then the log *)
Lemma parse_bus_details_unfold (rsm : Z -> string) (r : response) :
  parse_bus_details rsm r
  = match classify_rows (table_rows r) (page_fields r, []) with
    | Ok (it, other_details) =>
        Ok ([<["bus_overview" :=
                VOverview (extract_bus_overview_info
                             match other_details with
                             | [] => None
                             | _ => Some (join ", " other_details)
                             end)]> it],
            request_failed rsm r)
    | Raised e => Raised e
    end.
Proof.
  unfold parse_bus_details, page_fields.
  rewrite !extend_images_insert. cbn [app].
  destruct (classify_rows _ _) as [[it od]|e]; reflexivity.
Qed.

Lemma page_fields_lookup (r : response) :
  page_fields r !! "price" = Some (vopt (extract_price (h3_text r)))
  /\ page_fields r !! "airconditioning"
     = Some (vopt (extract_air_conditioning (table_rows r)))
  /\ page_fields r !! "description" = Some (VStr (join "" (map strip (paragraphs r))))
  /\ page_fields r !! "images"
     = Some (VImages (extract_images r main_floor_images_sel "main_images"
                      ++ extract_images r thumbnails_sel "thumbnails")%list).
Proof.
  unfold page_fields. repeat split.
  - rewrite lookup_insert_ne by discriminate. apply lookup_insert_eq.
  - apply lookup_insert_eq.
  - rewrite !lookup_insert_ne by discriminate. apply lookup_insert_eq.
  - rewrite !lookup_insert_ne by discriminate. apply lookup_insert_eq.
Qed.

(** X21.  For a detail-page response with a status above 400 whose table has
    no row matching the engine family pattern, the extraction is carried out
    on the content returned and exactly one item is yielded: the result of
    the row loop on the fields read from the page (price, air conditioning,
    description and images, which it keeps), with the overview added.  The
    same item is yielded under every other status; the failing status only
    adds the one error line to the log. *)
Theorem failing_status_adds_only_log_line (rsm : Z -> string) (r : response) :
  (400 < status r)%Z ->
  Forall (fun row => search engine_re (extract_text_from_td row) = None) (table_rows r) ->
  exists (it it1 : item) (other_details : list string),
    classify_rows (table_rows r) (page_fields r, []) = Ok (it1, other_details)
    /\ it = <["bus_overview" :=
               VOverview (extract_bus_overview_info
                            match other_details with
                            | [] => None
                            | _ => Some (join ", " other_details)
                            end)]> it1
    /\ parse_bus_details rsm r = Ok ([it], [status_line rsm (status r)])
    /\ (forall s, parse_bus_details rsm (with_status s r)
                  = Ok ([it], request_failed rsm (with_status s r)))
    /\ it !! "price" = Some (vopt (extract_price (h3_text r)))
    /\ it !! "airconditioning" = Some (vopt (extract_air_conditioning (table_rows r)))
    /\ it !! "description" = Some (VStr (join "" (map strip (paragraphs r))))
    /\ it !! "images"
       = Some (VImages (extract_images r main_floor_images_sel "main_images"
                        ++ extract_images r thumbnails_sel "thumbnails")%list).
Proof.
  intros Hs Hrows.
  destruct (classify_rows_ok (table_rows r) Hrows (page_fields r, [])) as [[it1 od] Hloop].
  eexists. exists it1, od. split; [exact Hloop|]. split; [reflexivity|].
  split; [|split].
  - rewrite parse_bus_details_unfold, Hloop. unfold request_failed, status_line.
    apply Z.ltb_lt in Hs. rewrite Hs. reflexivity.
  - intros s. rewrite parse_bus_details_unfold.
    change (table_rows (with_status s r)) with (table_rows r).
    change (page_fields (with_status s r)) with (page_fields r).
    rewrite Hloop. reflexivity.
  - assert (Hkeep : forall k, ~ In k classifier_keys -> k <> "mileage" ->
                      k <> "bus_overview" ->
                      (<["bus_overview" :=
                          VOverview (extract_bus_overview_info
                                       match od with
                                       | [] => None
                                       | _ => Some (join ", " od)
                                       end)]> it1 : item) !! k
                      = page_fields r !! k).
    { intros k Hk Hm Ho. rewrite lookup_insert_ne by congruence.
      apply (classify_rows_keeps _ _ _ _ _ k Hloop Hk). intros ->. congruence. }
    destruct (page_fields_lookup r) as (Hp & Ha & Hd & Hi).
    rewrite <- Hp, <- Ha, <- Hd, <- Hi.
    repeat split; apply Hkeep;
      first [discriminate | unfold classifier_keys; simpl; intuition discriminate].
Qed.

Lemma failing_status_adds_only_log_line_witness :
  exists (it it1 : item) (other_details : list string),
    classify_rows (table_rows failed_page) (page_fields failed_page, [])
      = Ok (it1, other_details)
    /\ it = <["bus_overview" :=
               VOverview (extract_bus_overview_info
                            match other_details with
                            | [] => None
                            | _ => Some (join ", " other_details)
                            end)]> it1
    /\ parse_bus_details status_text failed_page
       = Ok ([it], [status_line status_text 404])
    /\ (forall s, parse_bus_details status_text (with_status s failed_page)
                  = Ok ([it], request_failed status_text (with_status s failed_page)))
    /\ it !! "price" = Some (VStr "9,999")
    /\ it !! "airconditioning" = Some (VStr "REAR")
    /\ it !! "description" = Some (VStr "Clean bus.")
    /\ it !! "images" = Some (VImages []).
Proof.
  apply (failing_status_adds_only_log_line status_text failed_page).
  - reflexivity.
  - repeat constructor.
Defined.
